(** * The x86 frame layer of the HotSpot stack walker

    A shallow embedding of [src/hotspot/cpu/x86/frame_x86.cpp] (AMD64, LP64):
    the safety validator [frame::safe_for_sender], the interpreted-frame
    validator [frame::is_interpreted_frame_valid], the deoptimization patcher
    [frame::patch_pc], the entry-frame sender resolvers, the anchor capture
    [JavaFrameAnchor::capture_last_Java_pc] and the result extractor
    [frame::interpreter_frame_result].

    Pointers are 64-bit addresses held in [Z]; pointer arithmetic wraps at
    [2^64].  The stack is a finite map from the address of a word to its
    contents.  Functions of other translation units (code cache, interpreter,
    continuations, method metadata, ...) are fields of the [Runtime] class;
    the slot offsets of [frame_x86.hpp] are fields of [FrameLayout]. *)

From stdpp Require Import base option strings gmap.
From Stdlib Require Import ZArith Lia.

Local Open Scope Z_scope.

(** ** Machine words, addresses and memory *)

Definition address := Z.

Definition NULL : address := 0.

Definition wordSize : Z := 8.

Definition wrap64 (x : Z) : Z := x mod 2 ^ 64.

(** [p + n] for [p : intptr_t*]: the address [n] words above [p]. *)
Definition ptr_add (p : address) (n : Z) : address := wrap64 (p + n * wordSize).

(** [p - n] for [p : intptr_t*]. *)
Definition ptr_sub (p : address) (n : Z) : address := wrap64 (p - n * wordSize).

(** [p - q] for [p q : intptr_t*]: a signed count of words. *)
Definition ptr_diff (p q : address) : Z :=
  let d := wrap64 (p - q) in
  Z.quot (if d <? 2 ^ 63 then d else d - 2 ^ 64) wordSize.

(** [(intptr_t(p) & (wordSize-1)) != 0] *)
Definition misaligned (p : address) : bool := negb (Z.land p (wordSize - 1) =? 0).

Abbreviation memory := (gmap Z Z).

(** A word-sized load; a narrower load at [a] takes the low bytes of this
    word (x86 is little endian). *)
Definition load (mem : memory) (a : address) : Z := default 0 (mem !! a).

Definition store (mem : memory) (a : address) (v : Z) : memory := <[a := v]> mem.

(** ** Outcomes: a call returns, or the VM stops on a fatal error *)

Inductive fatal_error :=
  | AssertFailed (msg : string)
  | ShouldNotReachHere
  | InvalidPointer.

Inductive Res (A : Type) :=
  | Ok (a : A)
  | Fatal (e : fatal_error).

Arguments Ok {A} a.
Arguments Fatal {A} e.

#[global] Instance Res_ret : MRet Res := fun A a => Ok a.

#[global] Instance Res_bind : MBind Res := fun A B k m =>
  match m with
  | Ok a => k a
  | Fatal e => Fatal e
  end.

Definition returns {A} (r : Res A) : bool :=
  match r with Ok _ => true | Fatal _ => false end.

(** ** The stack-bounds oracle *)

Record JavaThread := mkThread {
  stack_base : address;
  stack_end : address;
  stack_reserved_zone_base : address
}.

(** Modelled from the spec: the per-thread stack predicates are declared in
    runtime/thread.hpp, which is not part of the sources.  The stack grows
    down from [stack_base] (the stack top) to [stack_end]; the guard zones
    lie between [stack_end] and [stack_reserved_zone_base].  An address is
    in the inclusive range of [limit] when it is within the stack and above
    or equal [limit]. *)
Definition is_in_stack_range_incl (t : JavaThread) (adr limit : address) : bool :=
  (limit <=? adr) && (adr <? stack_base t).

(** Modelled from the spec: as above, the exclusive range of [limit] is
    within the stack and above, but not equal, [limit]. *)
Definition is_in_stack_range_excl (t : JavaThread) (adr limit : address) : bool :=
  (limit <? adr) && (adr <? stack_base t).

(** Modelled from the spec: membership in the full stack, guard zones
    included. *)
Definition is_in_full_stack_checked (t : JavaThread) (adr : address) : bool :=
  is_in_stack_range_incl t adr (stack_end t).

(** Modelled from the spec: membership in the usable (non-guard) part of the
    stack. *)
Definition is_in_usable_stack (t : JavaThread) (adr : address) : bool :=
  is_in_stack_range_incl t adr (stack_reserved_zone_base t).

(** ** Code regions *)

Record CompiledMethod := mkCompiledMethod {
  is_deopt_entry : address -> bool;
  is_deopt_mh_entry : address -> bool;
  is_method_handle_intrinsic : bool;      (* method()->is_method_handle_intrinsic() *)
  get_original_pc : address -> memory -> address  (* reads through unextended sp only *)
}.

(** Modelled from the spec: the kind tag of a code region (the CodeBlob class
    hierarchy of code/codeBlob.hpp is not part of the sources). *)
Inductive CodeBlobKind :=
  | CompiledBlob (nm : CompiledMethod)
  | AdapterBlob
  | RuntimeStub
  | OptimizedEntryBlob (frame_data_offset : Z)
  | BufferBlob
  | SingletonBlob.

Record CodeBlob := mkCodeBlob {
  kind : CodeBlobKind;
  is_frame_complete_at : address -> bool;
  code_contains : address -> bool;
  frame_size : Z;
  is_zombie : bool;
  is_unloaded : bool
}.

Definition as_compiled_method_or_null (b : CodeBlob) : option CompiledMethod :=
  match kind b with CompiledBlob nm => Some nm | _ => None end.

Definition is_compiled (b : CodeBlob) : bool :=
  match kind b with CompiledBlob _ => true | _ => false end.

Definition is_adapter_blob (b : CodeBlob) : bool :=
  match kind b with AdapterBlob => true | _ => false end.

Definition is_runtime_stub (b : CodeBlob) : bool :=
  match kind b with RuntimeStub => true | _ => false end.

Definition is_optimized_entry_blob (b : CodeBlob) : bool :=
  match kind b with OptimizedEntryBlob _ => true | _ => false end.

(** ** Frames *)

Inductive deopt_state_t := not_deoptimized | is_deoptimized | unknown.

#[global] Instance deopt_state_eq_dec : EqDecision deopt_state_t.
Proof. solve_decision. Defined.

Record frame := mkframe {
  sp : address;
  fp : address;
  unextended_sp : address;
  pc : address;
  cb : address;                 (* CodeBlob*, NULL when the pc has no owning region *)
  deopt_state : deopt_state_t
}.

Definition set_pc (f : frame) (p : address) : frame :=
  mkframe (sp f) (fp f) (unextended_sp f) p (cb f) (deopt_state f).

Definition set_deopt_state (f : frame) (d : deopt_state_t) : frame :=
  mkframe (sp f) (fp f) (unextended_sp f) (pc f) (cb f) d.

Definition is_deoptimized_frame (f : frame) : bool :=
  bool_decide (deopt_state f = is_deoptimized).

(** ** Method metadata and result kinds *)

Inductive BasicType :=
  | T_BOOLEAN | T_CHAR | T_FLOAT | T_DOUBLE | T_BYTE | T_SHORT | T_INT | T_LONG
  | T_OBJECT | T_ARRAY | T_VOID
  | T_ADDRESS | T_NARROWOOP | T_METADATA | T_NARROWKLASS | T_CONFLICT | T_ILLEGAL.

Record Method := mkMethod {
  result_type : BasicType;
  is_native : bool;
  max_stack : Z;
  validate_bci_from_bcp : address -> Z
}.

(** [jvalue] is a union of 8 bytes; it is held as its 64-bit contents.
    Assigning a member of [width] bytes replaces the low [width] bytes
    (little endian) and keeps the others. *)
Definition jvalue := Z.

Definition jvalue_put (width : Z) (v : jvalue) (x : Z) : jvalue :=
  Z.lor (Z.land v (Z.ones 64 - Z.ones (8 * width))) (Z.land x (Z.ones (8 * width))).

(** The two out-parameters of [interpreter_frame_result]. *)
Record outputs := mkOutputs {
  oop_result : Z;
  value_result : jvalue
}.

(** ** Register maps and frame anchors *)

Record RegisterMap := mkRegisterMap {
  include_argument_oops : bool;
  update_map : bool;
  walk_cont : bool;
  location : gmap Z Z           (* register number -> address of its save slot *)
}.

Record JavaFrameAnchor := mkAnchor {
  last_Java_sp : address;
  last_Java_fp : address;
  last_Java_pc : address
}.

(** The anchors live in JavaCallWrappers and FrameData blocks that several
    frames can reach: they are kept in a store indexed by their address. *)
Abbreviation anchors := (gmap Z JavaFrameAnchor).

(** Modelled from the spec: [JavaFrameAnchor::walkable] is declared in
    javaFrameAnchor_x86.hpp, which is not part of the sources.  The anchor is
    walkable once its last frame is set and its pc has been captured (the pc
    field is the nullable sentinel of the two-state walkable flag). *)
Definition walkable (jfa : JavaFrameAnchor) : bool :=
  negb (last_Java_sp jfa =? NULL) && negb (last_Java_pc jfa =? NULL).

Definition set_last_Java_pc (jfa : JavaFrameAnchor) (p : address) : JavaFrameAnchor :=
  mkAnchor (last_Java_sp jfa) (last_Java_fp jfa) p.

(** ** Slot offsets of frame_x86.hpp (in words, relative to fp) *)

Class FrameLayout := {
  link_offset : Z;
  return_addr_offset : Z;
  sender_sp_offset : Z;
  interpreter_frame_oop_temp_offset : Z;
  interpreter_frame_sender_sp_offset : Z;
  interpreter_frame_method_offset : Z;
  interpreter_frame_cache_offset : Z;
  interpreter_frame_locals_offset : Z;
  interpreter_frame_initial_sp_offset : Z;
  stackElementWords : Z;        (* Interpreter::stackElementWords *)
  stackElementSize : Z          (* Interpreter::stackElementSize *)
}.

(** ** Collaborators defined outside frame_x86.cpp *)

Class Runtime := {
  (* whether assert/vmassert are compiled in (ASSERT builds) *)
  debug_build : bool;
  (* CodeBlob* dereference and CodeCache lookups *)
  blob_at : address -> CodeBlob;
  find_blob : address -> address;
  find_blob_unsafe : address -> address;
  (* Interpreter, StubRoutines, Continuation *)
  Interpreter_contains : address -> bool;
  returns_to_call_stub : address -> bool;
  is_return_barrier_entry : address -> bool;
  fix_continuation_bottom_sender :
    JavaThread -> memory -> frame -> address -> address -> address * address;
  (* frame queries of runtime/frame.cpp and frame_x86.inline.hpp *)
  is_entry_frame : frame -> bool;
  is_optimized_entry_frame : frame -> bool;
  is_interpreted_frame : frame -> bool;
  is_compiled_frame : frame -> bool;
  is_entry_frame_valid : JavaThread -> memory -> frame -> bool;
  entry_frame_call_wrapper : memory -> frame -> address;
  interpreter_frame_bcp : memory -> frame -> address;
  interpreter_frame_method : memory -> frame -> address;
  interpreter_frame_tos_address : memory -> frame -> address;
  raw_pc : frame -> address;
  (* frame(sp, unextended_sp, fp, pc) and frame(sp, fp, pc) *)
  frame_ctor : memory -> address -> address -> address -> address -> frame;
  frame_ctor3 : memory -> address -> address -> address -> frame;
  (* Method* dereference, Method::is_valid_method, MetaspaceObj::is_valid,
     Universe::is_in_heap_or_null *)
  method_at : address -> Method;
  is_valid_method : address -> bool;
  MetaspaceObj_is_valid : address -> bool;
  is_in_heap_or_null : Z -> bool;
  (* JavaCallWrapper::anchor() and the offset of the anchor in
     OptimizedEntryBlob::FrameData *)
  JavaCallWrapper_anchor : address -> address;
  FrameData_jfa_offset : Z;
  (* RegisterMap::clear and Thread::current() == thread *)
  RegisterMap_clear : RegisterMap -> RegisterMap;
  is_current_thread : JavaThread -> bool;
  (* what [as_optimized_entry_blob()->_frame_data_offset] yields on a blob of
     another kind in a build without assertions (the downcast is only
     asserted) *)
  miscast_frame_data_offset : CodeBlob -> Z
}.

Section FrameX86.

Context `{L : FrameLayout} `{R : Runtime}.

(** [assert(cond, msg)] and [vmassert(cond, msg)]: checked in ASSERT builds
    only. *)
Definition assert (cond : bool) (msg : string) : Res unit :=
  if debug_build && negb cond then Fatal (AssertFailed msg) else Ok tt.

(** [fp()[index]] and [at(index)] *)
Definition at_ (mem : memory) (f : frame) (index : Z) : Z :=
  load mem (ptr_add (fp f) index).

(** [addr_at(index)] *)
Definition addr_at (f : frame) (index : Z) : address := ptr_add (fp f) index.

(** ** frame::is_interpreted_frame_valid *)

Definition is_interpreted_frame_valid
    (thread : JavaThread) (mem : memory) (f : frame) : Res bool :=
  _ ← assert (is_interpreted_frame f) "Not an interpreted frame";
  (* These are reasonable sanity checks *)
  if (fp f =? 0) || misaligned (fp f) then Ok false else
  if (sp f =? 0) || misaligned (sp f) then Ok false else
  if ptr_add (fp f) interpreter_frame_initial_sp_offset <? sp f then Ok false else
  if fp f <=? sp f then Ok false else
  (* first the method *)
  let m := at_ mem f interpreter_frame_method_offset in
  if negb (is_valid_method m) then Ok false else
  (* stack frames shouldn't be much larger than max_stack elements *)
  if 1024 + max_stack (method_at m) * stackElementSize
       <? ptr_diff (fp f) (unextended_sp f) then Ok false else
  (* validate bci/bcp *)
  let bcp := interpreter_frame_bcp mem f in
  if validate_bci_from_bcp (method_at m) bcp <? 0 then Ok false else
  (* validate ConstantPoolCache* *)
  let cp := at_ mem f interpreter_frame_cache_offset in
  if negb (MetaspaceObj_is_valid cp) then Ok false else
  (* validate locals *)
  let locals := at_ mem f interpreter_frame_locals_offset in
  Ok (is_in_stack_range_incl thread locals (fp f)).

(** ** frame::safe_for_sender *)

(** The provisional sender computed at lines 110-148. *)
Record sender_info := mkSender {
  sender_sp : address;
  sender_unextended_sp : address;
  sender_pc : address;
  saved_fp : address
}.

(** [fp_safe], lines 75-76. *)
Definition fp_is_safe (thread : JavaThread) (f : frame) : bool :=
  is_in_stack_range_excl thread (fp f) (sp f) &&
  is_in_full_stack_checked thread (wrap64 (fp f + return_addr_offset * 8)).

(** Lines 110-148: the sender of an interpreted frame is read from the fixed
    slots above fp; the sender of a compiled/runtime frame lies
    [frame_size] words above the unextended sp.  [None] stands for the
    [return false] exits. *)
Definition provisional_sender
    (thread : JavaThread) (mem : memory) (f : frame) (fp_safe : bool)
    : option sender_info :=
  if is_interpreted_frame f then
    (* fp must be safe *)
    if negb fp_safe then None else
    Some {| sender_pc := at_ mem f return_addr_offset;
            sender_sp := addr_at f sender_sp_offset;
            sender_unextended_sp := at_ mem f interpreter_frame_sender_sp_offset;
            saved_fp := at_ mem f link_offset |}
  else
    (* must be some sort of compiled/runtime frame *)
    if frame_size (blob_at (cb f)) <=? 0 then None else
    let sender_sp := ptr_add (unextended_sp f) (frame_size (blob_at (cb f))) in
    (* Is sender_sp safe? *)
    if negb (is_in_full_stack_checked thread sender_sp) then None else
    Some {| sender_sp := sender_sp;
            sender_unextended_sp := sender_sp;
            sender_pc := load mem (ptr_sub sender_sp 1);
            saved_fp := load mem (ptr_sub sender_sp sender_sp_offset) |}.

(** Lines 150-152: a return-barrier pc is replaced by the continuation's
    bottom sender. *)
Definition fix_return_barrier
    (thread : JavaThread) (mem : memory) (f : frame) (s : sender_info) : sender_info :=
  if is_return_barrier_entry (sender_pc s) then
    let '(pc', sp') :=
      fix_continuation_bottom_sender thread mem f (sender_pc s) (sender_sp s) in
    {| sender_sp := sp'; sender_unextended_sp := sender_unextended_sp s;
       sender_pc := pc'; saved_fp := saved_fp s |}
  else s.

(** Lines 154-243: validation of the potential sender. *)
Definition validate_sender
    (thread : JavaThread) (mem : memory) (s : sender_info) : Res bool :=
  (* If the potential sender is the interpreter then we can do some more checking *)
  if Interpreter_contains (sender_pc s) then
    if negb (is_in_stack_range_excl thread (saved_fp s) (sender_sp s)) then Ok false else
    (* construct the potential sender *)
    let sender :=
      frame_ctor mem (sender_sp s) (sender_unextended_sp s) (saved_fp s) (sender_pc s) in
    is_interpreted_frame_valid thread mem sender
  else
  (* We must always be able to find a recognizable pc *)
  let sender_blob := find_blob_unsafe (sender_pc s) in
  if (sender_pc s =? NULL) || (sender_blob =? NULL) then Ok false else
  (* Could be a zombie method *)
  if is_zombie (blob_at sender_blob) || is_unloaded (blob_at sender_blob) then Ok false else
  (* Could just be some random pointer within the codeBlob *)
  if negb (code_contains (blob_at sender_blob) (sender_pc s)) then Ok false else
  (* We should never be able to see an adapter *)
  if is_adapter_blob (blob_at sender_blob) then Ok false else
  (* Could be the call_stub *)
  if returns_to_call_stub (sender_pc s) then
    if negb (is_in_stack_range_excl thread (saved_fp s) (sender_sp s)) then Ok false else
    let sender :=
      frame_ctor mem (sender_sp s) (sender_unextended_sp s) (saved_fp s) (sender_pc s) in
    (* Validate the JavaCallWrapper an entry frame must have *)
    let jcw := entry_frame_call_wrapper mem sender in
    Ok (is_in_stack_range_excl thread jcw (fp sender))
  else if is_optimized_entry_blob (blob_at sender_blob) then Ok false
  else
  if match as_compiled_method_or_null (blob_at sender_blob) with
     | Some nm =>
         is_deopt_mh_entry nm (sender_pc s) || is_deopt_entry nm (sender_pc s) ||
         is_method_handle_intrinsic nm
     | None => false
     end
  then Ok false else
  (* If the frame size is 0 something (or less) is bad *)
  if frame_size (blob_at sender_blob) <=? 0 then
    _ ← assert (negb (is_compiled (blob_at sender_blob)))
               "should count return address at least";
    Ok false
  else
  (* We should never be able to see anything here except an nmethod *)
  if negb (is_compiled (blob_at sender_blob)) then Ok false else
  (* We've validated the potential sender that would be created *)
  Ok true.

(** Lines 97-243: the checks on a frame known to the code cache that follow
    the frame-complete test. *)
Definition safe_for_sender_in_code_cache
    (thread : JavaThread) (mem : memory) (f : frame) (fp_safe : bool) : Res bool :=
  (* Could just be some random pointer within the codeBlob *)
  if negb (code_contains (blob_at (cb f)) (pc f)) then Ok false else
  (* Entry frame checks *)
  if is_entry_frame f then
    (* an entry frame must have a valid fp. *)
    Ok (fp_safe && is_entry_frame_valid thread mem f)
  else if is_optimized_entry_frame f then Ok fp_safe
  else
  match provisional_sender thread mem f fp_safe with
  | None => Ok false
  | Some s => validate_sender thread mem (fix_return_barrier thread mem f s)
  end.

Definition safe_for_sender (thread : JavaThread) (mem : memory) (f : frame) : Res bool :=
  (* sp must be within the usable part of the stack (not in guards) *)
  if negb (is_in_usable_stack thread (sp f)) then Ok false else
  (* unextended sp must be within the stack and above or equal sp *)
  if negb (is_in_stack_range_incl thread (unextended_sp f) (sp f)) then Ok false else
  (* an fp must be within the stack and above (but not equal) sp *)
  let fp_safe := fp_is_safe thread f in
  if negb (cb f =? NULL) then
    (* First check if frame is complete and tester is reliable *)
    if negb (is_frame_complete_at (blob_at (cb f)) (pc f)) &&
       (is_compiled (blob_at (cb f)) || is_adapter_blob (blob_at (cb f)) ||
        is_runtime_stub (blob_at (cb f)))
    then Ok false
    else safe_for_sender_in_code_cache thread mem f fp_safe
  else
  (* Must be native-compiled frame. *)
  if negb fp_safe then Ok false else
  (* Will the pc we fetch be non-zero (which we'll find at the oldest frame) *)
  if at_ mem f return_addr_offset =? NULL then Ok false else
  Ok true.

(** ** frame::patch_pc *)

(** Modelled from the spec: [CompiledMethod::get_deopt_original_pc] is defined
    in code/compiledMethod.cpp, which is not part of the sources.  The owning
    compiled method recovers an original pc when the frame's pc is one of its
    deoptimization entries (the test [adjust_unextended_sp] makes at lines
    431-440), through [get_original_pc], which reads the frame's unextended
    sp only (lines 412-417). *)
Definition get_deopt_original_pc (mem : memory) (fr : frame) : address :=
  if cb fr =? NULL then NULL else
  match as_compiled_method_or_null (blob_at (cb fr)) with
  | Some cm =>
      if is_deopt_entry cm (pc fr) || is_deopt_mh_entry cm (pc fr)
      then get_original_pc cm (unextended_sp fr) mem
      else NULL
  | None => NULL
  end.

(** The message of the assertion at line 278 is empty. *)
Definition no_message : string := EmptyString.

(** The condition asserted at line 278:
    [_pc == *pc_addr || pc == *pc_addr || *pc_addr == 0]. *)
Definition return_address_consistent (this : frame) (new_pc slot : address) : bool :=
  (pc this =? slot) || (new_pc =? slot) || (slot =? 0).

(** [&(((address* ) sp())[-1])] *)
Definition pc_addr (this : frame) : address := ptr_sub (sp this) 1.

(** The frame [this] and the stack are threaded through the call. *)
Definition patch_pc (thread : JavaThread) (new_pc : address) (st : frame * memory)
    : Res (frame * memory) :=
  let '(this, mem) := st in
  _ ← assert (cb this =? find_blob new_pc) "unexpected pc";
  (* Either the return address is the original one or we are going to
     patch in the same address that's already there. *)
  _ ← assert (negb (is_return_barrier_entry (load mem (pc_addr this)))) "return barrier";
  _ ← assert (return_address_consistent this new_pc (load mem (pc_addr this))) no_message;
  let old_pc := pc this in
  let mem := store mem (pc_addr this) new_pc in
  let this := set_pc this new_pc in  (* must be set before call to get_deopt_original_pc *)
  let original_pc := get_deopt_original_pc mem this in
  this ←
    (if negb (original_pc =? NULL) then
       _ ← assert (original_pc =? old_pc)
                  "expected original PC to be stored before patching";
       Ok (set_pc (set_deopt_state this is_deoptimized) original_pc)
     else Ok (set_deopt_state this not_deoptimized));
  _ ← assert (negb (is_compiled_frame this) ||
              match as_compiled_method_or_null (blob_at (cb this)) with
              | Some cm => negb (is_deopt_entry cm (pc this))
              | None => false
              end) "must be";
  (* #ifdef ASSERT *)
  let f := frame_ctor mem (sp this) (unextended_sp this) (fp this) new_pc in
  _ ← assert (bool_decide (is_deoptimized_frame f = is_deoptimized_frame this) &&
              (pc f =? pc this) && (raw_pc f =? raw_pc this))
             "must be (f.is_deoptimized_frame() == this->is_deoptimized_frame() ...)";
  Ok (this, mem).

(** The frame a returning [patch_pc] leaves behind, given the patched stack:
    the branch of lines 283-289 on the original pc recovered from the frame
    with its pc set to [new_pc]. *)
Definition patched_frame (mem : memory) (this : frame) (new_pc : address) : frame :=
  if negb (get_deopt_original_pc mem (set_pc this new_pc) =? NULL)
  then set_pc (set_deopt_state (set_pc this new_pc) is_deoptimized)
              (get_deopt_original_pc mem (set_pc this new_pc))
  else set_deopt_state (set_pc this new_pc) not_deoptimized.

(** ** JavaFrameAnchor::capture_last_Java_pc and make_walkable *)

Definition capture_last_Java_pc (mem : memory) (jfa : JavaFrameAnchor)
    : Res JavaFrameAnchor :=
  _ ← assert (negb (last_Java_sp jfa =? NULL)) "no last frame set";
  _ ← assert (last_Java_pc jfa =? NULL) "already walkable";
  Ok (set_last_Java_pc jfa (load mem (ptr_sub (last_Java_sp jfa) 1))).

Definition make_walkable (thread : JavaThread) (mem : memory) (jfa : JavaFrameAnchor)
    : Res JavaFrameAnchor :=
  (* last frame set? *)
  if last_Java_sp jfa =? NULL then Ok jfa else
  (* already walkable? *)
  if walkable jfa then Ok jfa else
  _ ← assert (is_current_thread thread) "not current thread";
  _ ← assert (negb (last_Java_sp jfa =? NULL)) "not called from Java code?";
  _ ← assert (last_Java_pc jfa =? NULL) "already walkable";
  jfa ← capture_last_Java_pc mem jfa;
  _ ← assert (walkable jfa) "something went wrong";
  Ok jfa.

(** ** frame::sender_for_entry_frame and sender_for_optimized_entry_frame *)

(** Dereference of a [JavaFrameAnchor*]. *)
Definition anchor_at (heap : anchors) (p : address) : Res JavaFrameAnchor :=
  match heap !! p with
  | Some jfa => Ok jfa
  | None => Fatal InvalidPointer
  end.

(** Lines 353-364, shared by both resolvers: capture the pc of a nested
    anchor that is not walkable yet, clear the map, build the sender. *)
Definition sender_from_anchor
    (mem : memory) (map : option RegisterMap) (jfa_ptr : address)
    (heap : anchors) : Res (frame * RegisterMap * anchors) :=
  jfa ← anchor_at heap jfa_ptr;
  heap ←
    (if negb (walkable jfa) then
       (* Capture _last_Java_pc (if needed) and mark anchor walkable. *)
       jfa' ← capture_last_Java_pc mem jfa;
       Ok (<[jfa_ptr := jfa']> heap)
     else Ok heap);
  map ← (match map with
         | Some m => Ok (RegisterMap_clear m)
         | None => Fatal InvalidPointer
         end);
  _ ← assert (include_argument_oops map) "should be set by clear";
  jfa ← anchor_at heap jfa_ptr;
  _ ← assert (negb (last_Java_pc jfa =? NULL)) "not walkable";
  Ok (frame_ctor3 mem (last_Java_sp jfa) (last_Java_fp jfa) (last_Java_pc jfa),
      map, heap).

(** Modelled from the spec: [frame::entry_frame_is_first] is defined in
    runtime/frame.cpp, which is not part of the sources; like
    [optimized_entry_frame_is_first] below it tells whether the anchor is the
    oldest one, which has no last Java sp. *)
Definition entry_frame_is_first (jfa : JavaFrameAnchor) : bool :=
  last_Java_sp jfa =? NULL.

Definition sender_for_entry_frame
    (mem : memory) (this : frame) (map : option RegisterMap) (heap : anchors)
    : Res (frame * RegisterMap * anchors) :=
  _ ← assert (bool_decide (is_Some map)) "map must be set";
  (* Java frame called from C; skip all C frames and return top C
     frame of that chunk as the sender *)
  let jfa_ptr := JavaCallWrapper_anchor (entry_frame_call_wrapper mem this) in
  jfa ← anchor_at heap jfa_ptr;
  _ ← assert (negb (entry_frame_is_first jfa)) "next Java fp must be non zero";
  _ ← assert (sp this <? last_Java_sp jfa) "must be above this frame on stack";
  sender_from_anchor mem map jfa_ptr heap.

(** [OptimizedEntryBlob::frame_data_for_frame], then the downcast
    [_cb->as_optimized_entry_blob()] followed by the address of the [jfa]
    member of the frame data ([OptimizedEntryBlob::jfa_for_frame]). *)
Definition frame_data_for_frame (frame_data_offset : Z) (f : frame) : Res address :=
  _ ← assert (is_optimized_entry_frame f) "wrong frame";
  (* need unextended_sp here, since normal sp is wrong for interpreter callees *)
  Ok (wrap64 (unextended_sp f + frame_data_offset)).

Definition jfa_for_frame (f : frame) : Res address :=
  (* _cb->as_optimized_entry_blob(): the kind is asserted, not tested *)
  _ ← assert (is_optimized_entry_blob (blob_at (cb f))) "must be entry blob";
  let frame_data_offset :=
    match kind (blob_at (cb f)) with
    | OptimizedEntryBlob frame_data_offset => frame_data_offset
    | _ => miscast_frame_data_offset (blob_at (cb f))
    end in
  fd ← frame_data_for_frame frame_data_offset f;
  Ok (wrap64 (fd + FrameData_jfa_offset)).

Definition optimized_entry_frame_is_first (this : frame) (heap : anchors) : Res bool :=
  _ ← assert (is_optimized_entry_frame this) "must be optimzed entry frame";
  jfa_ptr ← jfa_for_frame this;
  jfa ← anchor_at heap jfa_ptr;
  Ok (last_Java_sp jfa =? NULL).

Definition sender_for_optimized_entry_frame
    (mem : memory) (this : frame) (map : option RegisterMap) (heap : anchors)
    : Res (frame * RegisterMap * anchors) :=
  _ ← assert (bool_decide (is_Some map)) "map must be set";
  jfa_ptr ← jfa_for_frame this;
  jfa ← anchor_at heap jfa_ptr;
  first ← (if debug_build then optimized_entry_frame_is_first this heap else Ok false);
  _ ← assert (negb first) "must have a frame anchor to go back to";
  _ ← assert (sp this <? last_Java_sp jfa) "must be above this frame on stack";
  sender_from_anchor mem map jfa_ptr heap.

(** ** frame::interpreter_frame_result *)

(** A load of [width] bytes at [tos_addr] assigned to a member of
    [value_result]. *)
Definition put_value (mem : memory) (width : Z) (tos_addr : address) (out : outputs)
    : outputs :=
  mkOutputs (oop_result out) (jvalue_put width (value_result out) (load mem tos_addr)).

(** The dispatch of the call, given the method and the top-of-stack address
    that the accessors [interpreter_frame_method] and
    [interpreter_frame_tos_address] supply: it returns the list of the
    addresses the dispatch loads from (in order) next to its outcome.  [out]
    holds the contents of [*oop_result] and [*value_result] at the call.
    The whole call, with the reads the accessors make and the fault of a load
    from an unmapped address, is [Traced.interpreter_frame_result] below. *)
Definition interpreter_frame_result (mem : memory) (this : frame) (out : outputs)
    : list address * Res (BasicType * outputs) :=
  if debug_build && negb (is_interpreted_frame this)
  then ([], Fatal (AssertFailed "interpreted frame expected")) else
  let method := method_at (interpreter_frame_method mem this) in
  let type := result_type method in
  let tos_addr :=
    if is_native method then
      (* the possible return value is pushed to the native stack *)
      match type with
      | T_FLOAT | T_DOUBLE =>
          (* AMD64: we do a push(ltos) after pushing XMM0 *)
          ptr_add (sp this) (2 * stackElementWords)
      | _ => sp this
      end
    else interpreter_frame_tos_address mem this in
  match type with
  | T_OBJECT | T_ARRAY =>
      let '(loads, obj) :=
        if is_native method then
          ([addr_at this interpreter_frame_oop_temp_offset],
           at_ mem this interpreter_frame_oop_temp_offset)
        else if tos_addr =? NULL then ([], NULL)
        else ([tos_addr], load mem tos_addr) in
      (loads,
       _ ← assert (is_in_heap_or_null obj) "sanity check";
       Ok (type, mkOutputs obj (value_result out)))
  | T_BOOLEAN => ([tos_addr], Ok (type, put_value mem 1 tos_addr out))
  | T_BYTE => ([tos_addr], Ok (type, put_value mem 1 tos_addr out))
  | T_CHAR => ([tos_addr], Ok (type, put_value mem 2 tos_addr out))
  | T_SHORT => ([tos_addr], Ok (type, put_value mem 2 tos_addr out))
  | T_INT => ([tos_addr], Ok (type, put_value mem 4 tos_addr out))
  | T_LONG => ([tos_addr], Ok (type, put_value mem 8 tos_addr out))
  | T_FLOAT => ([tos_addr], Ok (type, put_value mem 4 tos_addr out))
  | T_DOUBLE => ([tos_addr], Ok (type, put_value mem 8 tos_addr out))
  | T_VOID => ([], Ok (type, out))   (* Nothing to do *)
  | _ => ([], Fatal ShouldNotReachHere)
  end.

End FrameX86.

(** ** The remaining slot accessors and the interpreted-frame resolver *)

(** Further slot offsets of frame_x86.hpp (in words, relative to fp). *)
Class InterpreterLayout := {
  interpreter_frame_last_sp_offset : Z;
  interpreter_frame_monitor_block_top_offset : Z;
  interpreter_frame_monitor_block_bottom_offset : Z
}.

(** Further collaborators defined outside frame_x86.cpp. *)
Class Walker := {
  (* whether the build has COMPILER2 or JVMCI *)
  COMPILER2_OR_JVMCI : bool;
  (* frame::update_map_with_saved_link(map, link_addr) *)
  update_map_with_saved_link : RegisterMap -> address -> RegisterMap;
  (* map->thread() *)
  RegisterMap_thread : RegisterMap -> JavaThread;
  (* Continuation::top_frame(callee, map) *)
  Continuation_top_frame : memory -> frame -> RegisterMap -> frame * RegisterMap;
  (* CompiledMethod::insts_contains_inclusive *)
  insts_contains_inclusive : CompiledMethod -> address -> bool
}.

Section Accessors.

Context `{L : FrameLayout} `{IL : InterpreterLayout} `{R : Runtime} `{W : Walker}.

(** [ptr_at_put(index, value)]: [*addr_at(index) = value]. *)
Definition ptr_at_put (mem : memory) (f : frame) (index : Z) (value : Z) : memory :=
  store mem (addr_at f index) value.

Definition interpreter_frame_sender_sp (mem : memory) (this : frame) : Res address :=
  _ ← assert (is_interpreted_frame this) "interpreted frame expected";
  Ok (at_ mem this interpreter_frame_sender_sp_offset).

Definition set_interpreter_frame_sender_sp
    (mem : memory) (this : frame) (sender_sp : address) : Res memory :=
  _ ← assert (is_interpreted_frame this) "interpreted frame expected";
  Ok (ptr_at_put mem this interpreter_frame_sender_sp_offset sender_sp).

(** *** monitor elements *)

Definition interpreter_frame_monitor_begin (this : frame) : address :=
  addr_at this interpreter_frame_monitor_block_bottom_offset.

Definition interpreter_frame_monitor_end (mem : memory) (this : frame) : Res address :=
  let result := at_ mem this interpreter_frame_monitor_block_top_offset in
  (* make sure the pointer points inside the frame *)
  _ ← assert (sp this <=? result) "monitor end should be above the stack pointer";
  _ ← assert (result <? fp this)
             "monitor end should be strictly below the frame pointer";
  Ok result.

Definition interpreter_frame_set_monitor_end
    (mem : memory) (this : frame) (value : address) : memory :=
  store mem (addr_at this interpreter_frame_monitor_block_top_offset) value.

(** Used by template based interpreter deoptimization *)
Definition interpreter_frame_set_last_sp
    (mem : memory) (this : frame) (sp : address) : memory :=
  store mem (addr_at this interpreter_frame_last_sp_offset) sp.

(** *** frame::verify_deopt_original_pc and frame::adjust_unextended_sp
    (ASSERT builds) *)

Definition verify_deopt_original_pc
    (mem : memory) (nm : CompiledMethod) (unextended_sp : address) : Res unit :=
  let original_pc := get_original_pc nm unextended_sp mem in
  assert (insts_contains_inclusive nm original_pc)
         "original PC must be in the main code section of the the compiled method (or must be immediately following it)".

Definition adjust_unextended_sp (mem : memory) (this : frame) : Res unit :=
  if negb (cb this =? NULL) then
    match as_compiled_method_or_null (blob_at (cb this)) with
    | Some sender_cm =>
        (* If the sender PC is a deoptimization point, get the original PC. *)
        if is_deopt_entry sender_cm (pc this) || is_deopt_mh_entry sender_cm (pc this)
        then verify_deopt_original_pc mem sender_cm (unextended_sp this)
        else Ok tt
    | None => Ok tt
    end
  else Ok tt.

(** *** frame::sender_for_interpreter_frame *)

(** Modelled from the spec: [frame::sender_sp], [frame::link] and
    [frame::sender_pc] are defined in frame_x86.inline.hpp, which is not part
    of the sources.  The sender's raw sp is the address of the slot at
    [sender_sp_offset], the sender's fp is the value of the link slot and the
    sender's pc is the value of the return-address slot (the reads
    [safe_for_sender] makes at lines 121-127). *)
Definition frame_sender_sp (this : frame) : address := addr_at this sender_sp_offset.

Definition link (mem : memory) (this : frame) : address := at_ mem this link_offset.

Definition frame_sender_pc (mem : memory) (this : frame) : address :=
  at_ mem this return_addr_offset.

Definition sender_for_interpreter_frame
    (mem : memory) (this : frame) (map : RegisterMap) : Res (frame * RegisterMap) :=
  (* SP is the raw SP from the sender after adapter or interpreter extension. *)
  let sender_sp := frame_sender_sp this in
  (* This is the sp before any possible extension (adapter/locals). *)
  unextended_sp ← interpreter_frame_sender_sp mem this;
  let sender_fp := link mem this in
  let map :=
    if COMPILER2_OR_JVMCI && update_map map
    then update_map_with_saved_link map (addr_at this link_offset)
    else map in
  let sender_pc := frame_sender_pc mem this in
  if is_return_barrier_entry sender_pc then
    if walk_cont map then (* about to walk into an h-stack *)
      Ok (Continuation_top_frame mem this map)
    else
      let '(sender_pc, unextended_sp) :=
        fix_continuation_bottom_sender (RegisterMap_thread map) mem this
          sender_pc unextended_sp in
      Ok (frame_ctor mem sender_sp unextended_sp sender_fp sender_pc, map)
  else Ok (frame_ctor mem sender_sp unextended_sp sender_fp sender_pc, map).

End Accessors.


(** ** The result extractor with every read of the stack

    A computation that reads the stack returns, next to its outcome, the
    addresses it has loaded from, in order.  The list is produced by [read]
    alone, and a load from an address that is not mapped stops the
    computation. *)

Module Traced.

Definition Rd (A : Type) : Type := memory -> list address * Res A.

#[global] Instance Rd_ret : MRet Rd := fun A a _ => ([], Ok a).

#[global] Instance Rd_bind : MBind Rd := fun A B k m mem =>
  match m mem with
  | (l, Ok a) => let '(l', r) := k a mem in (l ++ l', r)
  | (l, Fatal e) => (l, Fatal e)
  end.

(** [*(intptr_t* )a] *)
Definition read (a : address) : Rd Z := fun mem =>
  ([a], match mem !! a with
        | Some v => Ok v
        | None => Fatal InvalidPointer
        end).

Definition stop {A : Type} (e : fatal_error) : Rd A := fun _ => ([], Fatal e).

Section Run.

Context `{L : FrameLayout} `{IL : InterpreterLayout} `{R : Runtime}.

(** [assert(cond, msg)] *)
Definition check (cond : bool) (msg : string) : Rd unit := fun _ => ([], assert cond msg).

(** Modelled from the spec: [frame::interpreter_frame_method] is defined in
    runtime/frame.cpp, which is not part of the sources.  The method of an
    interpreted frame is the contents of its method slot, the read that
    [is_interpreted_frame_valid] makes at line 495. *)
Definition interpreter_frame_method (this : frame) : Rd address :=
  read (addr_at this interpreter_frame_method_offset).

(** [frame::interpreter_frame_monitor_end], lines 329-335. *)
Definition interpreter_frame_monitor_end (this : frame) : Rd address :=
  result ← read (addr_at this interpreter_frame_monitor_block_top_offset);
  _ ← check (sp this <=? result) "monitor end should be above the stack pointer";
  _ ← check (result <? fp this)
            "monitor end should be strictly below the frame pointer";
  mret result.

(** Modelled from the spec: [frame::interpreter_frame_tos_address] is defined
    in frame_x86.inline.hpp, which is not part of the sources.  The standard
    top-of-expression-stack address is the last sp saved in the frame (the
    slot [interpreter_frame_set_last_sp] writes, lines 342-344) when there is
    one, and the frame's sp otherwise; an ASSERT build checks that a saved
    last sp does not lie above the monitor end. *)
Definition interpreter_frame_tos_address (this : frame) : Rd address :=
  last_sp ← read (addr_at this interpreter_frame_last_sp_offset);
  if last_sp =? NULL then mret (sp this)
  else
    _ ← (if debug_build then
           monitor_end ← interpreter_frame_monitor_end this;
           check (last_sp <=? monitor_end) "bad tos"
         else mret tt);
    mret last_sp.

(** Lines 531-549: the top-of-stack address. *)
Definition tos_address (this : frame) (method : Method) : Rd address :=
  if is_native method then
    (* the possible return value is pushed to the native stack *)
    mret (match result_type method with
          | T_FLOAT | T_DOUBLE =>
              (* AMD64: we do a push(ltos) after pushing XMM0 *)
              ptr_add (sp this) (2 * stackElementWords)
          | _ => sp this
          end)
  else interpreter_frame_tos_address this.

(** A load of a member of [width] bytes at [tos_addr] assigned to
    [value_result]. *)
Definition read_value (width : Z) (tos_addr : address) (type : BasicType)
    (out : outputs) : Rd (BasicType * outputs) :=
  x ← read tos_addr;
  mret (type, mkOutputs (oop_result out) (jvalue_put width (value_result out) x)).

Definition interpreter_frame_result (this : frame) (out : outputs)
    : Rd (BasicType * outputs) :=
  _ ← check (is_interpreted_frame this) "interpreted frame expected";
  m ← interpreter_frame_method this;
  let method := method_at m in
  let type := result_type method in
  tos_addr ← tos_address this method;
  match type with
  | T_OBJECT | T_ARRAY =>
      obj ← (if is_native method then
               read (addr_at this interpreter_frame_oop_temp_offset)
             else if tos_addr =? NULL then mret NULL
             else read tos_addr);
      _ ← check (is_in_heap_or_null obj) "sanity check";
      mret (type, mkOutputs obj (value_result out))
  | T_BOOLEAN => read_value 1 tos_addr type out
  | T_BYTE => read_value 1 tos_addr type out
  | T_CHAR => read_value 2 tos_addr type out
  | T_SHORT => read_value 2 tos_addr type out
  | T_INT => read_value 4 tos_addr type out
  | T_LONG => read_value 8 tos_addr type out
  | T_FLOAT => read_value 4 tos_addr type out
  | T_DOUBLE => read_value 8 tos_addr type out
  | T_VOID => mret (type, out)   (* Nothing to do *)
  | _ => stop ShouldNotReachHere
  end.

End Run.

End Traced.

(** ** At-most-once capture, as a property of a resolver *)

Section Specifications.

Context `{R : Runtime}.

(** At-most-once capture by a sender resolver [resolve] that reaches the
    anchor [jfa] stored at [jfa_ptr]: when it returns, a walkable anchor has
    been left alone and an anchor that was not walkable has had its pc
    captured from the word below its last sp; with assertions on, the
    anchor's pc is then non-null, the anchor is walkable, and resolving
    again leaves the anchors as they are. *)
Definition captures_at_most_once
    (resolve : option RegisterMap -> anchors -> Res (frame * RegisterMap * anchors))
    (mem : memory) (jfa_ptr : address) (jfa : JavaFrameAnchor)
    (map : option RegisterMap) (heap : anchors) : Prop :=
  forall fr map' heap',
    resolve map heap = Ok (fr, map', heap') ->
    (walkable jfa = true -> heap' = heap) /\
    (walkable jfa = false ->
     heap' = (<[jfa_ptr := set_last_Java_pc jfa
                             (load mem (ptr_sub (last_Java_sp jfa) 1))]> heap)) /\
    (debug_build = true ->
     exists jfa',
       heap' !! jfa_ptr = Some jfa' /\
       last_Java_pc jfa' <> NULL /\
       walkable jfa' = true /\
       forall fr2 map2 heap2,
         resolve (Some map') heap' = Ok (fr2, map2, heap2) -> heap2 = heap').

End Specifications.

(** ** A small concrete VM: AMD64 slot layout, one thread, three code regions *)

Module Sample.

#[export] Instance x86_64_layout : FrameLayout := {|
  link_offset := 0;
  return_addr_offset := 1;
  sender_sp_offset := 2;
  interpreter_frame_oop_temp_offset := 2;
  interpreter_frame_sender_sp_offset := -1;
  interpreter_frame_method_offset := -3;
  interpreter_frame_cache_offset := -6;
  interpreter_frame_locals_offset := -7;
  interpreter_frame_initial_sp_offset := -9;
  stackElementWords := 1;
  stackElementSize := 8
|}.

(** Stack from 0x1000 to 0x8000, guard zones below 0x2000. *)
Definition thread : JavaThread := mkThread 0x8000 0x1000 0x2000.

Definition in_range (lo hi a : address) : bool := (lo <=? a) && (a <? hi).

(** The deoptimization handler of the compiled method and the slot (relative
    to the unextended sp) where its frames keep the original pc. *)
Definition deopt_handler : address := 0x100f00.

Definition orig_pc_offset : Z := 16.

Definition nm : CompiledMethod := {|
  is_deopt_entry := fun a => a =? deopt_handler;
  is_deopt_mh_entry := fun a => a =? 0x100f10;
  is_method_handle_intrinsic := false;
  get_original_pc := fun usp mem => load mem (usp + orig_pc_offset)
|}.

(** An nmethod at 0x100000 with frames of 4 words, complete after 16 bytes. *)
Definition nmethod_blob : CodeBlob := {|
  kind := CompiledBlob nm;
  is_frame_complete_at := in_range 0x100010 0x101000;
  code_contains := in_range 0x100000 0x101000;
  frame_size := 4;
  is_zombie := false;
  is_unloaded := false
|}.

(** The interpreter: a generic buffer blob, never frame-complete. *)
Definition interpreter_blob : CodeBlob := {|
  kind := BufferBlob;
  is_frame_complete_at := fun _ => false;
  code_contains := in_range 0x200000 0x201000;
  frame_size := 0;
  is_zombie := false;
  is_unloaded := false
|}.

(** An i2c/c2i adapter. *)
Definition adapter_blob : CodeBlob := {|
  kind := AdapterBlob;
  is_frame_complete_at := fun _ => false;
  code_contains := in_range 0x400000 0x400100;
  frame_size := 0;
  is_zombie := false;
  is_unloaded := false
|}.

Definition sample_blob_at (p : address) : CodeBlob :=
  if p =? 100 then nmethod_blob
  else if p =? 300 then adapter_blob
  else interpreter_blob.

Definition sample_find_blob (a : address) : address :=
  if code_contains nmethod_blob a then 100
  else if code_contains interpreter_blob a then 200
  else if code_contains adapter_blob a then 300
  else NULL.

Definition long_method : Method := {|
  result_type := T_LONG;
  is_native := false;
  max_stack := 4;
  validate_bci_from_bcp := fun bcp => if in_range 0x6000 0x6010 bcp then bcp - 0x6000 else -1
|}.

Definition sample_method_at (p : address) : Method :=
  if p =? 0x5000 then long_method
  else if p =? 0x5100 then mkMethod T_VOID false 4 (fun _ => 0)
  else if p =? 0x5200 then mkMethod T_OBJECT true 4 (fun _ => 0)
  else if p =? 0x5300 then mkMethod T_OBJECT false 4 (fun _ => 0)
  else mkMethod T_ILLEGAL false 0 (fun _ => -1).

(** The frame constructors: the owning region is looked up from the pc, and
    a pc that is a deoptimization entry is replaced by the original pc. *)
Definition sample_frame_ctor (mem : memory) (sp usp fp pc : address) : frame :=
  if (sample_find_blob pc =? 100) && (is_deopt_entry nm pc || is_deopt_mh_entry nm pc)
  then mkframe sp fp usp (get_original_pc nm usp mem) 100 is_deoptimized
  else mkframe sp fp usp pc (sample_find_blob pc) not_deoptimized.

Definition runtime (dbg : bool) : Runtime := {|
  debug_build := dbg;
  blob_at := sample_blob_at;
  find_blob := sample_find_blob;
  find_blob_unsafe := sample_find_blob;
  Interpreter_contains := code_contains interpreter_blob;
  returns_to_call_stub := fun a => a =? 0x300008;
  is_return_barrier_entry := fun a => a =? 0x300100;
  fix_continuation_bottom_sender := fun _ _ _ pc sp => (pc, sp);
  is_entry_frame := fun f => pc f =? 0x300008;
  is_optimized_entry_frame := fun f =>
    negb (cb f =? NULL) && is_optimized_entry_blob (sample_blob_at (cb f));
  is_interpreted_frame := fun f => code_contains interpreter_blob (pc f);
  is_compiled_frame := fun f => negb (cb f =? NULL) && is_compiled (sample_blob_at (cb f));
  is_entry_frame_valid := fun t mem f =>
    is_in_stack_range_excl t (load mem (ptr_add (fp f) 2)) (fp f);
  entry_frame_call_wrapper := fun mem f => load mem (ptr_add (fp f) 2);
  interpreter_frame_bcp := fun mem f => load mem (ptr_add (fp f) (-8));
  interpreter_frame_method := fun mem f => load mem (ptr_add (fp f) (-3));
  interpreter_frame_tos_address := fun mem f =>
    if load mem (ptr_add (fp f) (-2)) =? NULL then sp f else load mem (ptr_add (fp f) (-2));
  raw_pc := fun f => if is_deoptimized_frame f then deopt_handler else pc f;
  frame_ctor := sample_frame_ctor;
  frame_ctor3 := fun mem sp fp pc => sample_frame_ctor mem sp sp fp pc;
  method_at := sample_method_at;
  is_valid_method := fun p => in_range 0x5000 0x5400 p;
  MetaspaceObj_is_valid := fun p => p =? 0x7000;
  is_in_heap_or_null := fun o => (o =? 0) || in_range 0x900000 0xa00000 o;
  JavaCallWrapper_anchor := fun p => p + 8;
  FrameData_jfa_offset := 0;
  RegisterMap_clear := fun m => mkRegisterMap true (update_map m) (walk_cont m) ∅;
  is_current_thread := fun _ => true;
  miscast_frame_data_offset := fun _ => 0
|}.

(** A compiled frame at sp 0x3000 whose fp register holds no frame pointer,
    called from the same nmethod. *)
Definition compiled_frame : frame := mkframe 0x3000 0 0x3000 0x100020 100 not_deoptimized.

Definition compiled_caller_stack : memory :=
  {[ 0x3018 := 0x100040; 0x3010 := 0x3100 ]}.

(** The same frame called from the interpreter: the word below the sender sp
    0x3020 returns into the interpreter and the saved fp 0x3080 is the fp of
    a well-formed interpreted frame. *)
Definition interpreted_caller_stack : memory :=
  {[ 0x3018 := 0x200010; 0x3010 := 0x3080;
     0x3068 := 0x5000; 0x3040 := 0x6004; 0x3050 := 0x7000; 0x3048 := 0x30a0 ]}.

(** An interpreted frame (its code region is the never-complete interpreter
    blob) called from the nmethod. *)
Definition interpreted_frame : frame := mkframe 0x3000 0x3040 0x3000 0x200010 200 not_deoptimized.

Definition interpreted_callee_stack : memory :=
  {[ 0x3048 := 0x100040; 0x3038 := 0x3050; 0x3040 := 0x3100 ]}.

(** A frame whose pc is in the adapter, which is never frame-complete. *)
Definition adapter_frame : frame := mkframe 0x3000 0x3040 0x3000 0x400010 300 not_deoptimized.

(** Stacks for patching the return address of [compiled_frame]: the slot
    of the original pc holds the frame's pc; the return-address slot 0x2ff8
    is zeroed in the first and holds the frame's pc in the second. *)
Definition zeroed_slot_stack : memory := {[ 0x3010 := 0x100020 ]}.

Definition patch_stack : memory := {[ 0x2ff8 := 0x100020; 0x3010 := 0x100020 ]}.

(** An entry frame whose call wrapper (at 0x3100) holds an anchor at 0x3108
    that has not been made walkable; the word below its last sp is 0x100040. *)
Definition entry_frame : frame := mkframe 0x3000 0x3040 0x3000 0x300008 0 not_deoptimized.

Definition entry_stack : memory := {[ 0x3050 := 0x3100; 0x31f8 := 0x100040 ]}.

Definition entry_anchors : anchors := {[ 0x3108 := mkAnchor 0x3200 0x3240 NULL ]}.

Definition empty_map : RegisterMap := mkRegisterMap false true false ∅.


(** Frames of object-returning methods: a native one whose oop temp slot
    (fp + 2 words) holds 0x900010, and a non-native one whose saved last sp
    (fp - 2 words) makes the top-of-stack address 0x3008. *)
Definition native_object_stack : memory := {[ 0x3028 := 0x5200; 0x3050 := 0x900010 ]}.

Definition object_stack : memory :=
  {[ 0x3028 := 0x5300; 0x3030 := 0x3008; 0x3008 := 0x900020 ]}.

(** A frame of the non-native object method whose top-of-stack address is
    null (no saved last sp, and a null sp). *)
Definition null_tos_frame : frame := mkframe 0 0x3040 0 0x200010 200 not_deoptimized.

Definition null_tos_stack : memory := {[ 0x3028 := 0x5300 ]}.

End Sample.

(** ** More of the concrete VM: the remaining slots, the walker's
    collaborators and variants of the code cache *)

Module SampleWalk.

#[export] Instance x86_64_interpreter_layout : InterpreterLayout := {|
  interpreter_frame_last_sp_offset := -2;
  interpreter_frame_monitor_block_top_offset := -9;
  interpreter_frame_monitor_block_bottom_offset := -9
|}.

(** [rbp] is register 5; its save slot is recorded in the map. *)
Definition walker : Walker := {|
  COMPILER2_OR_JVMCI := true;
  update_map_with_saved_link := fun m link_addr =>
    mkRegisterMap (include_argument_oops m) (update_map m) (walk_cont m)
      (<[5 := link_addr]> (location m));
  RegisterMap_thread := fun _ => Sample.thread;
  Continuation_top_frame := fun _ f m => (f, m);
  insts_contains_inclusive := fun _ a => Sample.in_range 0x100000 0x101001 a
|}.

(** The runtime [r] over another table of code regions. *)
Definition with_blobs (r : Runtime) (blobs : address -> CodeBlob) : Runtime := {|
  debug_build := debug_build (Runtime := r);
  blob_at := blobs;
  find_blob := find_blob (Runtime := r);
  find_blob_unsafe := find_blob_unsafe (Runtime := r);
  Interpreter_contains := Interpreter_contains (Runtime := r);
  returns_to_call_stub := returns_to_call_stub (Runtime := r);
  is_return_barrier_entry := is_return_barrier_entry (Runtime := r);
  fix_continuation_bottom_sender := fix_continuation_bottom_sender (Runtime := r);
  is_entry_frame := is_entry_frame (Runtime := r);
  is_optimized_entry_frame := fun f =>
    negb (cb f =? NULL) && is_optimized_entry_blob (blobs (cb f));
  is_interpreted_frame := is_interpreted_frame (Runtime := r);
  is_compiled_frame := fun f => negb (cb f =? NULL) && is_compiled (blobs (cb f));
  is_entry_frame_valid := is_entry_frame_valid (Runtime := r);
  entry_frame_call_wrapper := entry_frame_call_wrapper (Runtime := r);
  interpreter_frame_bcp := interpreter_frame_bcp (Runtime := r);
  interpreter_frame_method := interpreter_frame_method (Runtime := r);
  interpreter_frame_tos_address := interpreter_frame_tos_address (Runtime := r);
  raw_pc := raw_pc (Runtime := r);
  frame_ctor := frame_ctor (Runtime := r);
  frame_ctor3 := frame_ctor3 (Runtime := r);
  method_at := method_at (Runtime := r);
  is_valid_method := is_valid_method (Runtime := r);
  MetaspaceObj_is_valid := MetaspaceObj_is_valid (Runtime := r);
  is_in_heap_or_null := is_in_heap_or_null (Runtime := r);
  JavaCallWrapper_anchor := JavaCallWrapper_anchor (Runtime := r);
  FrameData_jfa_offset := FrameData_jfa_offset (Runtime := r);
  RegisterMap_clear := RegisterMap_clear (Runtime := r);
  is_current_thread := is_current_thread (Runtime := r);
  miscast_frame_data_offset := miscast_frame_data_offset (Runtime := r)
|}.

(** A code cache with an optimized entry blob (an upcall stub) at 400 whose
    frame data lies 32 bytes above the unextended sp. *)
Definition upcall_blobs (p : address) : CodeBlob :=
  if p =? 400 then
    mkCodeBlob (OptimizedEntryBlob 32) (fun _ => true)
      (Sample.in_range 0x500000 0x500100) 8 false false
  else Sample.sample_blob_at p.

Definition upcall_frame : frame := mkframe 0x3000 0x3040 0x3000 0x500010 400 not_deoptimized.

(** The anchor of the upcall frame, at 0x3020, is walkable. *)
Definition upcall_anchors : anchors := {[ 0x3020 := mkAnchor 0x3200 0x3240 0x100040 ]}.

(** A return-address slot holding the continuation return barrier. *)
Definition barrier_slot_stack : memory := {[ 0x2ff8 := 0x300100; 0x3010 := 0x100020 ]}.

(** An interpreted frame with a monitor block ending at 0x3010. *)
Definition monitor_stack : memory := {[ 0x2ff8 := 0x3010; 0x3038 := 0x3050 ]}.

(** A compiled frame whose pc is the deopt handler, with the original pc
    0x100020 kept at unextended sp + 16. *)
Definition deopt_frame : frame :=
  mkframe 0x3000 0 0x3000 Sample.deopt_handler 100 is_deoptimized.





(** An interpreted frame (fp 0x3010) called from the interpreted frame with
    sp 0x3020 and fp 0x3080 of [Sample.interpreted_caller_stack]. *)
Definition interpreted_callee : frame :=
  mkframe 0x3000 0x3010 0x3000 0x200010 200 not_deoptimized.

Definition interpreted_chain_stack : memory :=
  <[ 0x3008 := 0x3020 ]> Sample.interpreted_caller_stack.

End SampleWalk.

(** * Properties *)

Section BasicFacts.

Context `{L : FrameLayout} `{R : Runtime}.

(** ** Basic facts *)

Lemma assert_true (msg : string) : assert true msg = Ok tt.
Proof. unfold assert. now rewrite andb_false_r. Qed.

Lemma assert_product (c : bool) (msg : string) :
  debug_build = false -> assert c msg = Ok tt.
Proof. unfold assert. now intros ->. Qed.

Lemma assert_debug_false (msg : string) :
  debug_build = true -> assert false msg = Fatal (AssertFailed msg).
Proof. unfold assert. now intros ->. Qed.

Lemma assert_ok_inv (c : bool) (msg : string) (u : unit) :
  assert c msg = Ok u -> debug_build = false \/ c = true.
Proof.
  unfold assert. destruct debug_build, c; simpl; intros H; try discriminate; auto.
Qed.

Lemma load_store_eq (mem : memory) (a : address) (v : Z) :
  load (store mem a v) a = v.
Proof. unfold load, store. now rewrite lookup_insert_eq. Qed.

Lemma load_store_ne (mem : memory) (a b : address) (v : Z) :
  a <> b -> load (store mem a v) b = load mem b.
Proof. intros Hab. unfold load, store. now rewrite lookup_insert_ne. Qed.

Lemma store_store_eq (mem : memory) (a : address) (v w : Z) :
  store (store mem a v) a w = store mem a w.
Proof. unfold store. apply insert_insert_eq. Qed.

Lemma excl_range_spec (t : JavaThread) (adr limit : address) :
  is_in_stack_range_excl t adr limit = true <-> limit < adr < stack_base t.
Proof. unfold is_in_stack_range_excl. rewrite andb_true_iff, !Z.ltb_lt. tauto. Qed.

Lemma incl_range_spec (t : JavaThread) (adr limit : address) :
  is_in_stack_range_incl t adr limit = true <-> limit <= adr < stack_base t.
Proof.
  unfold is_in_stack_range_incl. rewrite andb_true_iff, Z.leb_le, Z.ltb_lt. tauto.
Qed.

Lemma fp_is_safe_excl (t : JavaThread) (f : frame) :
  is_in_stack_range_excl t (fp f) (sp f) = false -> fp_is_safe t f = false.
Proof. unfold fp_is_safe. now intros ->. Qed.

End BasicFacts.

(** ** The safety validator *)

Section SafetyValidator.

Context `{L : FrameLayout} `{R : Runtime}.

(** C1. A frame whose owning code region is not frame-complete at its pc is
    rejected when the region is a compiled method, an adapter or a runtime
    stub; for a region of any other kind the incompleteness is ignored: the
    verdict is that of the remaining checks (the two stack-pointer checks
    before it and the code-cache checks after it). *)
Theorem safe_for_sender_frame_incomplete
    (thread : JavaThread) (mem : memory) (f : frame) :
  (cb f =? NULL) = false ->
  is_frame_complete_at (blob_at (cb f)) (pc f) = false ->
  match kind (blob_at (cb f)) with
  | CompiledBlob _ | AdapterBlob | RuntimeStub =>
      safe_for_sender thread mem f = Ok false
  | OptimizedEntryBlob _ | BufferBlob | SingletonBlob =>
      safe_for_sender thread mem f =
        if is_in_usable_stack thread (sp f) &&
           is_in_stack_range_incl thread (unextended_sp f) (sp f)
        then safe_for_sender_in_code_cache thread mem f (fp_is_safe thread f)
        else Ok false
  end.
Proof.
  intros Hcb Hinc. unfold safe_for_sender.
  rewrite Hcb, Hinc. unfold is_compiled, is_adapter_blob, is_runtime_stub.
  destruct (is_in_usable_stack thread (sp f));
    destruct (is_in_stack_range_incl thread (unextended_sp f) (sp f));
    destruct (kind (blob_at (cb f))); reflexivity.
Qed.


(** The sender of a compiled/runtime frame, as lines 134-147 compute it. *)
Lemma provisional_sender_compiled
    (thread : JavaThread) (mem : memory) (f : frame) (fp_safe : bool) :
  is_interpreted_frame f = false ->
  provisional_sender thread mem f fp_safe =
    if frame_size (blob_at (cb f)) <=? 0 then None
    else if is_in_full_stack_checked thread
              (ptr_add (unextended_sp f) (frame_size (blob_at (cb f))))
    then Some {| sender_sp := ptr_add (unextended_sp f) (frame_size (blob_at (cb f)));
                 sender_unextended_sp :=
                   ptr_add (unextended_sp f) (frame_size (blob_at (cb f)));
                 sender_pc :=
                   load mem (ptr_sub (ptr_add (unextended_sp f)
                                        (frame_size (blob_at (cb f)))) 1);
                 saved_fp :=
                   load mem (ptr_sub (ptr_add (unextended_sp f)
                                        (frame_size (blob_at (cb f))))
                               sender_sp_offset) |}
    else None.
Proof.
  intros Hi. unfold provisional_sender. rewrite Hi.
  destruct (frame_size (blob_at (cb f)) <=? 0); [reflexivity|].
  now destruct (is_in_full_stack_checked thread _).
Qed.

(** When no provisional sender can be computed for a frame that is neither an
    entry nor an optimized entry frame, the frame is rejected. *)
Lemma safe_for_sender_no_provisional_sender
    (thread : JavaThread) (mem : memory) (f : frame) :
  (cb f =? NULL) = false ->
  is_entry_frame f = false ->
  is_optimized_entry_frame f = false ->
  provisional_sender thread mem f (fp_is_safe thread f) = None ->
  safe_for_sender thread mem f = Ok false.
Proof.
  intros Hcb He Ho Hp. unfold safe_for_sender, safe_for_sender_in_code_cache.
  rewrite Hcb, He, Ho, Hp. simpl.
  repeat match goal with |- context [if ?c then _ else _] => destruct c end;
    reflexivity.
Qed.

Lemma ptr_add_exact (p n : Z) :
  0 <= p + n * wordSize < 2 ^ 64 -> ptr_add p n = p + n * wordSize.
Proof. intros H. unfold ptr_add, wrap64. now apply Z.mod_small. Qed.

(** C3. For a compiled/runtime frame (an owning region, and neither
    interpreted, entry nor optimized entry) with declared frame size F:
    whenever a provisional sender is computed its sp is the unextended sp
    plus F words, exactly (the pointer sum, which is the integer sum
    whenever that sum is an address); one is computed as soon as F > 0 and
    that sp lies in the full stack; the frame is rejected when F <= 0 and
    when that sp is not within the full stack.  The verdict of
    [safe_for_sender] is, once the checks on the frame itself have passed,
    F > 0 and that sp lies in the full stack, the verdict on the sender
    found at that sp: its pc is the word just below it and its saved fp the
    word [sender_sp_offset] words below it. *)
Theorem safe_for_sender_compiled_sender_sp
    (thread : JavaThread) (mem : memory) (f : frame) :
  (cb f =? NULL) = false ->
  is_interpreted_frame f = false ->
  is_entry_frame f = false ->
  is_optimized_entry_frame f = false ->
  let F := frame_size (blob_at (cb f)) in
  (forall fp_safe s,
      provisional_sender thread mem f fp_safe = Some s ->
      0 < F /\
      sender_sp s = ptr_add (unextended_sp f) F /\
      (0 <= unextended_sp f -> unextended_sp f + F * wordSize < 2 ^ 64 ->
       sender_sp s = unextended_sp f + F * wordSize)) /\
  (forall fp_safe,
      0 < F ->
      is_in_full_stack_checked thread (ptr_add (unextended_sp f) F) = true ->
      exists s, provisional_sender thread mem f fp_safe = Some s /\
                sender_sp s = ptr_add (unextended_sp f) F) /\
  (F <= 0 -> safe_for_sender thread mem f = Ok false) /\
  (is_in_full_stack_checked thread (ptr_add (unextended_sp f) F) = false ->
   safe_for_sender thread mem f = Ok false) /\
  safe_for_sender thread mem f =
    if is_in_usable_stack thread (sp f) &&
       is_in_stack_range_incl thread (unextended_sp f) (sp f) &&
       (is_frame_complete_at (blob_at (cb f)) (pc f) ||
        negb (is_compiled (blob_at (cb f)) || is_adapter_blob (blob_at (cb f))
              || is_runtime_stub (blob_at (cb f)))) &&
       code_contains (blob_at (cb f)) (pc f) &&
       (0 <? F) && is_in_full_stack_checked thread (ptr_add (unextended_sp f) F)
    then
      validate_sender thread mem
        (fix_return_barrier thread mem f
           {| sender_sp := ptr_add (unextended_sp f) F;
              sender_unextended_sp := ptr_add (unextended_sp f) F;
              sender_pc := load mem (ptr_sub (ptr_add (unextended_sp f) F) 1);
              saved_fp :=
                load mem (ptr_sub (ptr_add (unextended_sp f) F) sender_sp_offset) |})
    else Ok false.
Proof.
  intros Hcb Hi He Ho F.
  assert (Hrun :
    safe_for_sender thread mem f =
      if is_in_usable_stack thread (sp f) &&
         is_in_stack_range_incl thread (unextended_sp f) (sp f) &&
         (is_frame_complete_at (blob_at (cb f)) (pc f) ||
          negb (is_compiled (blob_at (cb f)) || is_adapter_blob (blob_at (cb f))
                || is_runtime_stub (blob_at (cb f)))) &&
         code_contains (blob_at (cb f)) (pc f) &&
         (0 <? F) && is_in_full_stack_checked thread (ptr_add (unextended_sp f) F)
      then
        validate_sender thread mem
          (fix_return_barrier thread mem f
             {| sender_sp := ptr_add (unextended_sp f) F;
                sender_unextended_sp := ptr_add (unextended_sp f) F;
                sender_pc := load mem (ptr_sub (ptr_add (unextended_sp f) F) 1);
                saved_fp :=
                  load mem (ptr_sub (ptr_add (unextended_sp f) F) sender_sp_offset) |})
      else Ok false).
  { unfold safe_for_sender, safe_for_sender_in_code_cache.
    rewrite Hcb, He, Ho, (provisional_sender_compiled _ _ _ _ Hi). fold F. cbn.
    destruct (is_in_usable_stack thread (sp f)); [|reflexivity].
    destruct (is_in_stack_range_incl thread (unextended_sp f) (sp f)); [|reflexivity].
    cbn.
    destruct (is_frame_complete_at (blob_at (cb f)) (pc f)); cbn.
    - destruct (code_contains (blob_at (cb f)) (pc f)); [|reflexivity]. cbn.
      destruct (Z.leb_spec F 0), (Z.ltb_spec 0 F); try lia; [reflexivity|]. cbn.
      now destruct (is_in_full_stack_checked thread _).
    - destruct (is_compiled _ || is_adapter_blob _ || is_runtime_stub _);
        [reflexivity|]. cbn.
      destruct (code_contains (blob_at (cb f)) (pc f)); [|reflexivity]. cbn.
      destruct (Z.leb_spec F 0), (Z.ltb_spec 0 F); try lia; [reflexivity|]. cbn.
      now destruct (is_in_full_stack_checked thread _). }
  repeat split; try exact Hrun.
  - rewrite provisional_sender_compiled in H by assumption. fold F in H.
    destruct (Z.leb_spec F 0); [discriminate | assumption].
  - rewrite provisional_sender_compiled in H by assumption. fold F in H.
    destruct (F <=? 0); [discriminate|].
    destruct (is_in_full_stack_checked thread _); [|discriminate].
    now inversion H.
  - intros Hp Hlt.
    rewrite provisional_sender_compiled in H by assumption. fold F in H.
    destruct (Z.leb_spec F 0) as [|HF]; [discriminate|].
    destruct (is_in_full_stack_checked thread _); [|discriminate].
    inversion H; subst s; simpl. apply ptr_add_exact. unfold wordSize in *. lia.
  - intros fp_safe HF Hin. rewrite provisional_sender_compiled by assumption.
    fold F. destruct (Z.leb_spec F 0); [lia|]. rewrite Hin. eauto.
  - intros HF. apply safe_for_sender_no_provisional_sender; try assumption.
    rewrite provisional_sender_compiled by assumption. fold F.
    destruct (Z.leb_spec F 0); [reflexivity | lia].
  - intros Hout. apply safe_for_sender_no_provisional_sender; try assumption.
    rewrite provisional_sender_compiled by assumption. fold F.
    rewrite Hout. now destruct (F <=? 0).
Qed.

(** C5 (as amended). A candidate whose sp is not in the usable stack is
    rejected; a candidate whose fp lies outside the exclusive range
    (sp, stack top) is rejected when it has no owning code region or is an
    entry, optimized entry or interpreted frame.  (For compiled/runtime
    frames fp does not have to be safe, line 131.) *)
Theorem safe_for_sender_rejects_unsafe_sp_fp
    (thread : JavaThread) (mem : memory) (f : frame) :
  (is_in_usable_stack thread (sp f) = false ->
   safe_for_sender thread mem f = Ok false) /\
  (is_in_stack_range_excl thread (fp f) (sp f) = false ->
   (cb f =? NULL) || is_entry_frame f || is_optimized_entry_frame f
     || is_interpreted_frame f = true ->
   safe_for_sender thread mem f = Ok false).
Proof.
  split.
  - intros Hsp. unfold safe_for_sender. now rewrite Hsp.
  - intros Hfp Hk. apply fp_is_safe_excl in Hfp.
    unfold safe_for_sender, safe_for_sender_in_code_cache, provisional_sender.
    rewrite Hfp. simpl.
    destruct (is_in_usable_stack thread (sp f)); [|reflexivity].
    destruct (is_in_stack_range_incl thread _ _); [|reflexivity]. simpl.
    destruct (cb f =? NULL); [reflexivity|]. simpl in *.
    destruct (_ && _); [reflexivity|].
    destruct (negb _); [reflexivity|].
    destruct (is_entry_frame f); [reflexivity|].
    destruct (is_optimized_entry_frame f); [reflexivity|].
    simpl in Hk. now rewrite Hk.
Qed.

(** C4 (as amended). When a provisional sender is computed and its pc (after
    the return-barrier redirection) lies inside interpreter code, the frame
    is accepted only if the saved fp lies strictly between the sender sp and
    the stack top and the sender constructed from (sender sp, sender
    unextended sp, saved fp, sender pc) passes [is_interpreted_frame_valid]. *)
Theorem safe_for_sender_interpreted_sender
    (thread : JavaThread) (mem : memory) (f : frame) (s : sender_info) :
  (cb f =? NULL) = false ->
  is_entry_frame f = false ->
  is_optimized_entry_frame f = false ->
  provisional_sender thread mem f (fp_is_safe thread f) = Some s ->
  Interpreter_contains (sender_pc (fix_return_barrier thread mem f s)) = true ->
  safe_for_sender thread mem f = Ok true ->
  let s' := fix_return_barrier thread mem f s in
  sender_sp s' < saved_fp s' < stack_base thread /\
  is_interpreted_frame_valid thread mem
    (frame_ctor mem (sender_sp s') (sender_unextended_sp s') (saved_fp s')
       (sender_pc s')) = Ok true.
Proof.
  intros Hcb He Ho Hp Hin Hsafe s'.
  unfold safe_for_sender, safe_for_sender_in_code_cache in Hsafe.
  rewrite Hcb, He, Ho, Hp in Hsafe. simpl in Hsafe.
  destruct (negb (is_in_usable_stack thread (sp f))); [discriminate|].
  destruct (negb (is_in_stack_range_incl thread _ _)); [discriminate|].
  destruct (_ && _); [discriminate|].
  destruct (negb (code_contains _ _)); [discriminate|].
  unfold validate_sender in Hsafe. fold s' in Hsafe, Hin. rewrite Hin in Hsafe.
  destruct (is_in_stack_range_excl thread (saved_fp s') (sender_sp s')) eqn:Hx;
    [|discriminate].
  split; [now apply excl_range_spec | exact Hsafe].
Qed.

End SafetyValidator.

(** The interpreter blob of the sample VM is a generic buffer blob that is
    never frame-complete, and a well-formed frame in it is accepted; the
    adapter is never frame-complete either, and a frame in it is rejected. *)
Lemma safe_for_sender_frame_incomplete_witness :
  safe_for_sender (L := Sample.x86_64_layout) (R := Sample.runtime true)
    Sample.thread Sample.interpreted_callee_stack Sample.interpreted_frame = Ok true /\
  safe_for_sender (L := Sample.x86_64_layout) (R := Sample.runtime true)
    Sample.thread Sample.interpreted_callee_stack Sample.adapter_frame = Ok false.
Proof.
  split.
  - exact (safe_for_sender_frame_incomplete (L := Sample.x86_64_layout)
             (R := Sample.runtime true) Sample.thread
             Sample.interpreted_callee_stack Sample.interpreted_frame eq_refl eq_refl).
  - exact (safe_for_sender_frame_incomplete (L := Sample.x86_64_layout)
             (R := Sample.runtime true) Sample.thread
             Sample.interpreted_callee_stack Sample.adapter_frame eq_refl eq_refl).
Defined.

(** The compiled frame of the sample VM: F = 4 words, so its sender sp is
    0x3000 + 32.  [safe_for_sender] accepts it on the strength of the sender
    found there (pc 0x100040 in the word below 0x3020), and rejects it when
    that word is null. *)
Lemma safe_for_sender_compiled_sender_sp_witness :
  (exists s,
      provisional_sender (L := Sample.x86_64_layout) (R := Sample.runtime true)
        Sample.thread Sample.compiled_caller_stack Sample.compiled_frame false = Some s /\
      sender_sp s = 0x3020) /\
  safe_for_sender (L := Sample.x86_64_layout) (R := Sample.runtime true)
    Sample.thread Sample.compiled_caller_stack Sample.compiled_frame
  = validate_sender (L := Sample.x86_64_layout) (R := Sample.runtime true)
      Sample.thread Sample.compiled_caller_stack
      (mkSender 0x3020 0x3020 0x100040 0x3100) /\
  safe_for_sender (L := Sample.x86_64_layout) (R := Sample.runtime true)
    Sample.thread Sample.compiled_caller_stack Sample.compiled_frame = Ok true /\
  safe_for_sender (L := Sample.x86_64_layout) (R := Sample.runtime true)
    Sample.thread {[ 0x3010 := 0x3100 ]} Sample.compiled_frame = Ok false.
Proof.
  destruct (safe_for_sender_compiled_sender_sp (L := Sample.x86_64_layout)
              (R := Sample.runtime true) Sample.thread Sample.compiled_caller_stack
              Sample.compiled_frame eq_refl eq_refl eq_refl eq_refl)
    as (_ & H & _ & _ & Hrun).
  destruct (safe_for_sender_compiled_sender_sp (L := Sample.x86_64_layout)
              (R := Sample.runtime true) Sample.thread {[ 0x3010 := 0x3100 ]}
              Sample.compiled_frame eq_refl eq_refl eq_refl eq_refl)
    as (_ & _ & _ & _ & Hrun0).
  split; [|split; [exact Hrun | split; [rewrite Hrun; reflexivity
                                        | rewrite Hrun0; reflexivity]]].
  destruct (H false) as (s & Hs & Hsp); [reflexivity | reflexivity |].
  exists s. split; [exact Hs | rewrite Hsp; reflexivity].
Defined.

(** A frame whose sp is in the guard zone, and a native frame (no owning code
    region) whose fp is null, are rejected. *)
Lemma safe_for_sender_rejects_unsafe_sp_fp_witness :
  safe_for_sender (L := Sample.x86_64_layout) (R := Sample.runtime true)
    Sample.thread Sample.compiled_caller_stack
    (mkframe 0x1800 0x1840 0x1800 0x100020 100 not_deoptimized) = Ok false /\
  safe_for_sender (L := Sample.x86_64_layout) (R := Sample.runtime true)
    Sample.thread Sample.compiled_caller_stack
    (mkframe 0x3000 0 0x3000 0x700000 NULL not_deoptimized) = Ok false.
Proof.
  split.
  - apply (proj1 (safe_for_sender_rejects_unsafe_sp_fp (L := Sample.x86_64_layout)
                    (R := Sample.runtime true) _ _ _)). reflexivity.
  - apply (proj2 (safe_for_sender_rejects_unsafe_sp_fp (L := Sample.x86_64_layout)
                    (R := Sample.runtime true) _ _ _)); reflexivity.
Defined.

(** C5 fails as stated: the compiled frame of the sample VM has fp = 0,
    outside the exclusive range (sp, stack top), and is accepted. *)
Lemma safe_for_sender_unsafe_fp_accepted :
  is_in_usable_stack Sample.thread (sp Sample.compiled_frame) = true /\
  is_in_stack_range_excl Sample.thread
    (fp Sample.compiled_frame) (sp Sample.compiled_frame) = false /\
  safe_for_sender (L := Sample.x86_64_layout) (R := Sample.runtime true)
    Sample.thread Sample.compiled_caller_stack Sample.compiled_frame = Ok true.
Proof. repeat split. Qed.

(** The compiled frame called from the interpreter: the saved fp 0x3080 lies
    between the sender sp 0x3020 and the stack top 0x8000. *)
Lemma safe_for_sender_interpreted_sender_witness :
  0x3020 < 0x3080 < 0x8000 /\
  is_interpreted_frame_valid (L := Sample.x86_64_layout) (R := Sample.runtime true)
    Sample.thread Sample.interpreted_caller_stack
    (frame_ctor (Runtime := Sample.runtime true) Sample.interpreted_caller_stack
       0x3020 0x3020 0x3080 0x200010) = Ok true.
Proof.
  exact (safe_for_sender_interpreted_sender (L := Sample.x86_64_layout)
           (R := Sample.runtime true) Sample.thread Sample.interpreted_caller_stack
           Sample.compiled_frame (mkSender 0x3020 0x3020 0x200010 0x3080)
           eq_refl eq_refl eq_refl eq_refl eq_refl eq_refl).
Defined.

(** C4 fails as stated: that frame is accepted through the interpreter
    branch although its provisional saved fp is not within the exclusive
    range (sp, sender sp); it lies above the sender sp. *)
Lemma safe_for_sender_saved_fp_above_sender_sp :
  let f := Sample.compiled_frame in
  let s := mkSender 0x3020 0x3020 0x200010 0x3080 in
  provisional_sender (L := Sample.x86_64_layout) (R := Sample.runtime true)
    Sample.thread Sample.interpreted_caller_stack f
    (fp_is_safe (L := Sample.x86_64_layout) Sample.thread f) = Some s /\
  fix_return_barrier (R := Sample.runtime true)
    Sample.thread Sample.interpreted_caller_stack f s = s /\
  Interpreter_contains (Runtime := Sample.runtime true) (sender_pc s) = true /\
  safe_for_sender (L := Sample.x86_64_layout) (R := Sample.runtime true)
    Sample.thread Sample.interpreted_caller_stack f = Ok true /\
  ~ (sp f < saved_fp s < sender_sp s).
Proof.
  repeat split. simpl. lia.
Qed.

(** ** The deoptimization patcher *)

Section DeoptPatcher.

Context `{R : Runtime}.

Lemma assert_cases (c : bool) (msg : string) :
  assert c msg = Ok tt \/
  (assert c msg = Fatal (AssertFailed msg) /\ debug_build = true /\ c = false).
Proof. unfold assert. destruct debug_build, c; simpl; auto. Qed.

(** Runs through the assertions of a call that returned. *)
Ltac assert_passed H :=
  match type of H with
  | context [assert ?c ?m] =>
      let E := fresh "Hassert" in
      destruct (assert c m) as [[]|] eqn:E; cbn in H; [|discriminate H]
  end.

(** The original-pc lookup reads the region, the pc and the unextended sp of
    the frame, not its deoptimization state. *)
Lemma get_deopt_original_pc_fields (mem : memory) (f g : frame) :
  cb f = cb g -> pc f = pc g -> unextended_sp f = unextended_sp g ->
  get_deopt_original_pc mem f = get_deopt_original_pc mem g.
Proof. unfold get_deopt_original_pc. now intros -> -> ->. Qed.

Lemma patched_frame_fields (mem : memory) (this : frame) (new_pc : address) :
  sp (patched_frame mem this new_pc) = sp this /\
  fp (patched_frame mem this new_pc) = fp this /\
  unextended_sp (patched_frame mem this new_pc) = unextended_sp this /\
  cb (patched_frame mem this new_pc) = cb this.
Proof. unfold patched_frame. now destruct (negb _). Qed.

(** What a returning call has done. *)
Lemma patch_pc_ok_inv
    (thread : JavaThread) (new_pc : address) (this this' : frame) (mem mem' : memory) :
  patch_pc thread new_pc (this, mem) = Ok (this', mem') ->
  mem' = store mem (pc_addr this) new_pc /\ this' = patched_frame mem' this new_pc.
Proof.
  intros H. unfold patch_pc in H. cbn in H.
  do 3 assert_passed H. unfold patched_frame.
  destruct (negb (get_deopt_original_pc (store mem (pc_addr this) new_pc)
                    (set_pc this new_pc) =? NULL)) eqn:E; cbn in H;
    repeat assert_passed H; inversion H; subst; rewrite E; auto.
Qed.

(** Without assertions the call always returns. *)
Lemma patch_pc_product
    (thread : JavaThread) (new_pc : address) (this : frame) (mem : memory) :
  debug_build = false ->
  patch_pc thread new_pc (this, mem) =
    Ok (patched_frame (store mem (pc_addr this) new_pc) this new_pc,
        store mem (pc_addr this) new_pc).
Proof.
  intros Hd. unfold patch_pc, patched_frame. cbn.
  rewrite !(assert_product _ _ Hd). cbn.
  destruct (negb (get_deopt_original_pc _ _ =? NULL)); cbn;
    rewrite !(assert_product _ _ Hd); reflexivity.
Qed.

(** C2. After a call [patch_pc(thread, new_pc)] whose precondition holds,
    the return-address slot [sp[-1]] holds [new_pc]; when an original pc is
    recoverable from the patched frame the frame is deoptimized and its
    logical pc is that original pc (the slot keeps [new_pc], the deopt
    handler); otherwise the frame is not deoptimized and its pc is
    [new_pc].  Without assertions the call always returns. *)
Theorem patch_pc_post
    (thread : JavaThread) (new_pc : address) (this : frame) (mem : memory) :
  cb this = find_blob new_pc ->
  (debug_build = false -> returns (patch_pc thread new_pc (this, mem)) = true) /\
  (forall this' mem',
      patch_pc thread new_pc (this, mem) = Ok (this', mem') ->
      load mem' (pc_addr this') = new_pc /\
      (get_deopt_original_pc mem' (set_pc this new_pc) <> NULL ->
       deopt_state this' = is_deoptimized /\
       pc this' = get_deopt_original_pc mem' (set_pc this new_pc) /\
       load mem' (pc_addr this') = new_pc) /\
      (get_deopt_original_pc mem' (set_pc this new_pc) = NULL ->
       deopt_state this' = not_deoptimized /\ pc this' = new_pc)).
Proof.
  intros _. split.
  - intros Hd. now rewrite patch_pc_product.
  - intros this' mem' H. apply patch_pc_ok_inv in H as [-> ->].
    assert (Hslot : load (store mem (pc_addr this) new_pc)
                      (pc_addr (patched_frame (store mem (pc_addr this) new_pc)
                                  this new_pc)) = new_pc).
    { unfold pc_addr at 2.
      destruct (patched_frame_fields (store mem (pc_addr this) new_pc) this new_pc)
        as (-> & _). apply load_store_eq. }
    split; [exact Hslot|]. unfold patched_frame. split.
    + intros Hne. apply Z.eqb_neq in Hne. rewrite Hne. cbn. repeat split.
      unfold patched_frame in Hslot. rewrite Hne in Hslot. exact Hslot.
    + intros ->. cbn. now split.
Qed.

Lemma patch_pc_again
    (thread : JavaThread) (new_pc : address) (this : frame) (mem : memory)
    (s1 : frame * memory) :
  patch_pc thread new_pc (this, mem) = Ok s1 ->
  assert (negb (is_return_barrier_entry new_pc)) "return barrier" = Ok tt ->
  patch_pc thread new_pc s1 = Ok s1.
Proof.
  intros H Hb. destruct s1 as [this1 mem1].
  destruct (patch_pc_ok_inv _ _ _ _ _ _ H) as [Hm Ht].
  unfold patch_pc in H. cbn in H. do 3 assert_passed H.
  unfold patch_pc. cbn.
  assert (Hpa : pc_addr this1 = pc_addr this).
  { unfold pc_addr. rewrite Ht. now destruct (patched_frame_fields mem1 this new_pc) as (-> & _). }
  assert (Hcb : cb this1 = cb this).
  { rewrite Ht. now destruct (patched_frame_fields mem1 this new_pc) as (_ & _ & _ & ->). }
  rewrite Hpa, Hcb, Hassert.
  assert (Hl : load mem1 (pc_addr this) = new_pc) by (rewrite Hm; apply load_store_eq).
  rewrite Hl, Hb. cbn.
  unfold return_address_consistent at 1. rewrite Z.eqb_refl, orb_true_r.
  rewrite assert_true. cbn.
  assert (Hst : store mem1 (pc_addr this) new_pc = mem1).
  { rewrite Hm. apply store_store_eq. }
  rewrite Hst. rewrite <- Hm in H.
  assert (Ho : get_deopt_original_pc mem1 (set_pc this1 new_pc) =
               get_deopt_original_pc mem1 (set_pc this new_pc)).
  { apply get_deopt_original_pc_fields; cbn; try reflexivity; [exact Hcb|].
    rewrite Ht. now destruct (patched_frame_fields mem1 this new_pc) as (_ & _ & -> & _). }
  rewrite Ho.
  assert (Hfields : sp this1 = sp this /\ fp this1 = fp this /\
                    unextended_sp this1 = unextended_sp this).
  { rewrite Ht. destruct (patched_frame_fields mem1 this new_pc) as (-> & -> & -> & _).
    auto. }
  destruct Hfields as (Hsp & Hfp & Husp).
  unfold patched_frame in Ht.
  destruct (negb (get_deopt_original_pc mem1 (set_pc this new_pc) =? NULL)) eqn:E;
    cbn in H |- *.
  - assert (Hpc : pc this1 = get_deopt_original_pc mem1 (set_pc this new_pc))
      by now rewrite Ht.
    rewrite Hpc, Z.eqb_refl, assert_true. cbn.
    assert_passed H.
    assert (Hthis : set_pc (set_deopt_state (set_pc this1 new_pc) is_deoptimized)
                      (get_deopt_original_pc mem1 (set_pc this new_pc)) = this1).
    { rewrite Ht at 2. unfold set_pc, set_deopt_state; cbn.
      now rewrite Hsp, Hfp, Husp, Hcb. }
    rewrite Hthis. clear - H Ht. subst this1. cbn in *. exact H.
  - assert (Hthis : set_deopt_state (set_pc this1 new_pc) not_deoptimized = this1).
    { rewrite Ht at 2. unfold set_pc, set_deopt_state; cbn.
      now rewrite Hsp, Hfp, Husp, Hcb. }
    rewrite Hthis. clear - H Ht. subst this1. cbn in *. exact H.
Qed.

(** C6 (as amended). [patch_pc] is idempotent: when a call with target
    [new_pc] has returned, a second call with the same target that returns
    leaves the same state (return-address slot, logical pc, deopt state), and
    it does return unless assertions are on and the target is the
    continuation return barrier.  With assertions on, a call made when the
    slot holds none of the frame's recorded pc, the target, or zero is
    fatal; it fails the consistency assertion of line 278 when the two
    assertions before it pass. *)
Theorem patch_pc_idempotent
    (thread : JavaThread) (new_pc : address) (this : frame) (mem : memory) :
  (forall s1,
      patch_pc thread new_pc (this, mem) = Ok s1 ->
      (forall s2,
          patch_pc thread new_pc s1 = Ok s2 ->
          s2 = s1 /\
          load (snd s2) (pc_addr (fst s2)) = load (snd s1) (pc_addr (fst s1)) /\
          pc (fst s2) = pc (fst s1) /\
          deopt_state (fst s2) = deopt_state (fst s1)) /\
      (debug_build = false \/ is_return_barrier_entry new_pc = false ->
       patch_pc thread new_pc s1 = Ok s1)) /\
  (debug_build = true ->
   load mem (pc_addr this) <> pc this ->
   load mem (pc_addr this) <> new_pc ->
   load mem (pc_addr this) <> 0 ->
   returns (patch_pc thread new_pc (this, mem)) = false /\
   (cb this = find_blob new_pc ->
    is_return_barrier_entry (load mem (pc_addr this)) = false ->
    patch_pc thread new_pc (this, mem) = Fatal (AssertFailed no_message))).
Proof.
  split.
  - intros s1 H1. split.
    + intros s2 H2.
      assert (Hb : assert (negb (is_return_barrier_entry new_pc)) "return barrier"
                   = Ok tt).
      { destruct s1 as [this1 mem1].
        destruct (patch_pc_ok_inv _ _ _ _ _ _ H1) as [Hm Ht].
        unfold patch_pc in H2. cbn in H2. do 2 assert_passed H2.
        assert (Hl : load mem1 (pc_addr this1) = new_pc).
        { unfold pc_addr. rewrite Ht.
          destruct (patched_frame_fields mem1 this new_pc) as (-> & _).
          rewrite Hm. apply load_store_eq. }
        now rewrite Hl in Hassert0. }
      rewrite (patch_pc_again _ _ _ _ _ H1 Hb) in H2. inversion H2. auto.
    + intros Hor. apply (patch_pc_again _ _ _ _ _ H1).
      destruct Hor as [Hd | Hnb]; [now apply assert_product|].
      rewrite Hnb. apply assert_true.
  - intros Hd Hpc Hnew H0.
    assert (Hc : return_address_consistent this new_pc (load mem (pc_addr this)) = false).
    { unfold return_address_consistent.
      apply Z.eqb_neq in H0. rewrite H0.
      assert ((pc this =? load mem (pc_addr this)) = false) as -> by (apply Z.eqb_neq; auto).
      assert ((new_pc =? load mem (pc_addr this)) = false) as -> by (apply Z.eqb_neq; auto).
      reflexivity. }
    split.
    + unfold patch_pc. cbn. rewrite Hc.
      destruct (assert (cb this =? find_blob new_pc) _) as [[]|]; [|reflexivity]. cbn.
      destruct (assert (negb _) _) as [[]|]; [|reflexivity]. cbn.
      now rewrite assert_debug_false.
    + intros Hcb Hnb. unfold patch_pc. cbn.
      rewrite Hc, Hcb, Z.eqb_refl, Hnb, !assert_true. cbn.
      now rewrite assert_debug_false.
Qed.

(** C9. The consistency assertion of [patch_pc] holds exactly when the slot
    held the frame's recorded pc, the new target or 0; in each of these
    cases, a zeroed slot included, the call does not fail on it. *)
Theorem patch_pc_tolerates_zero_slot
    (thread : JavaThread) (new_pc : address) (this : frame) (mem : memory) :
  (return_address_consistent this new_pc (load mem (pc_addr this)) = true <->
   load mem (pc_addr this) = pc this \/ load mem (pc_addr this) = new_pc \/
   load mem (pc_addr this) = 0) /\
  (load mem (pc_addr this) = pc this \/ load mem (pc_addr this) = new_pc \/
   load mem (pc_addr this) = 0 ->
   patch_pc thread new_pc (this, mem) <> Fatal (AssertFailed no_message)).
Proof.
  assert (Hiff : return_address_consistent this new_pc (load mem (pc_addr this)) = true <->
                 load mem (pc_addr this) = pc this \/ load mem (pc_addr this) = new_pc \/
                 load mem (pc_addr this) = 0).
  { unfold return_address_consistent. rewrite !orb_true_iff, !Z.eqb_eq.
    intuition auto. }
  split; [exact Hiff|].
  intros Hslot. apply Hiff in Hslot.
  unfold patch_pc. cbn. rewrite Hslot, assert_true. cbn.
  repeat match goal with
         | |- context [assert ?c ?m] =>
             destruct (assert_cases c m) as [-> | (-> & _)]; cbn;
             [|discriminate]
         | |- context [if ?c then _ else _] => destruct c; cbn
         end; discriminate.
Qed.

End DeoptPatcher.

(** Patching the compiled frame of the sample VM to its deopt handler: the
    slot holds the handler, the frame is deoptimized and its logical pc is
    the original pc kept at unextended sp + 16. *)
Lemma patch_pc_post_witness :
  exists this' mem',
    patch_pc (R := Sample.runtime true) Sample.thread Sample.deopt_handler
      (Sample.compiled_frame, Sample.patch_stack) = Ok (this', mem') /\
    load mem' (pc_addr this') = Sample.deopt_handler /\
    deopt_state this' = is_deoptimized /\
    pc this' = 0x100020.
Proof.
  destruct (patch_pc (R := Sample.runtime true) Sample.thread Sample.deopt_handler
              (Sample.compiled_frame, Sample.patch_stack)) as [[this' mem']|e] eqn:E.
  - exists this', mem'. split; [reflexivity|].
    destruct (patch_pc_post (R := Sample.runtime true) Sample.thread
                Sample.deopt_handler Sample.compiled_frame Sample.patch_stack eq_refl)
      as [_ H].
    destruct (H this' mem' E) as (Hslot & Hdeopt & _).
    destruct (patch_pc_ok_inv _ _ _ _ _ _ E) as [-> _].
    split; [exact Hslot|].
    destruct Hdeopt as (Hd & Hp & _); [discriminate|].
    split; [exact Hd | exact Hp].
  - discriminate E.
Defined.

(** The second patch of the same frame to the same target, with assertions
    on, returns the state of the first. *)
Lemma patch_pc_idempotent_witness :
  exists s1,
    patch_pc (R := Sample.runtime true) Sample.thread Sample.deopt_handler
      (Sample.compiled_frame, Sample.patch_stack) = Ok s1 /\
    patch_pc (R := Sample.runtime true) Sample.thread Sample.deopt_handler s1 = Ok s1.
Proof.
  destruct (patch_pc (R := Sample.runtime true) Sample.thread Sample.deopt_handler
              (Sample.compiled_frame, Sample.patch_stack)) as [s1|e] eqn:E.
  - exists s1. split; [reflexivity|].
    destruct (patch_pc_idempotent (R := Sample.runtime true) Sample.thread
                Sample.deopt_handler Sample.compiled_frame Sample.patch_stack)
      as [H _].
    apply (H s1 E). right. reflexivity.
  - discriminate E.
Defined.

(** C6 fails as stated: with assertions on, the return-address slot of the
    frame holds 0, which is neither the frame's recorded pc nor the target,
    and the call returns. *)
Lemma patch_pc_zeroed_slot_returns :
  debug_build (Runtime := Sample.runtime true) = true /\
  load Sample.zeroed_slot_stack (pc_addr Sample.compiled_frame)
    <> pc Sample.compiled_frame /\
  load Sample.zeroed_slot_stack (pc_addr Sample.compiled_frame)
    <> Sample.deopt_handler /\
  returns (patch_pc (R := Sample.runtime true) Sample.thread Sample.deopt_handler
             (Sample.compiled_frame, Sample.zeroed_slot_stack)) = true.
Proof. repeat split; discriminate. Qed.

(** A zeroed return-address slot: the call passes the consistency assertion
    (and, here, returns). *)
Lemma patch_pc_tolerates_zero_slot_witness :
  patch_pc (R := Sample.runtime true) Sample.thread Sample.deopt_handler
    (Sample.compiled_frame, Sample.zeroed_slot_stack)
    <> Fatal (AssertFailed no_message) /\
  returns (patch_pc (R := Sample.runtime true) Sample.thread Sample.deopt_handler
             (Sample.compiled_frame, Sample.zeroed_slot_stack)) = true.
Proof.
  split; [|reflexivity].
  apply (proj2 (patch_pc_tolerates_zero_slot (R := Sample.runtime true)
                  Sample.thread Sample.deopt_handler Sample.compiled_frame
                  Sample.zeroed_slot_stack)).
  right. right. reflexivity.
Defined.

(** ** Anchors and the entry-frame resolvers *)

Section AnchorCapture.

Context `{R : Runtime}.

Ltac assert_passed H :=
  match type of H with
  | context [assert ?c ?m] =>
      let E := fresh "Hassert" in
      destruct (assert c m) as [[]|] eqn:E; cbn in H; [|discriminate H]
  end.

Lemma anchor_at_lookup (heap : anchors) (p : address) (jfa : JavaFrameAnchor) :
  heap !! p = Some jfa -> anchor_at heap p = Ok jfa.
Proof. unfold anchor_at. now intros ->. Qed.

(** Capturing the pc of an anchor whose pc is already set is fatal when
    assertions are on. *)
Lemma capture_last_Java_pc_twice (mem : memory) (jfa : JavaFrameAnchor) :
  debug_build = true ->
  last_Java_pc jfa <> NULL ->
  returns (capture_last_Java_pc mem jfa) = false /\
  (last_Java_sp jfa <> NULL ->
   capture_last_Java_pc mem jfa = Fatal (AssertFailed "already walkable")).
Proof.
  intros Hd Hpc. apply Z.eqb_neq in Hpc. unfold capture_last_Java_pc, assert.
  rewrite Hd, Hpc. split.
  - now destruct (last_Java_sp jfa =? NULL).
  - intros Hsp. apply Z.eqb_neq in Hsp. now rewrite Hsp.
Qed.

(** [make_walkable] leaves a walkable anchor alone, and so never reaches the
    capture a second time. *)
Lemma make_walkable_walkable
    (thread : JavaThread) (mem : memory) (jfa : JavaFrameAnchor) :
  walkable jfa = true -> make_walkable thread mem jfa = Ok jfa.
Proof.
  intros W. unfold make_walkable. rewrite W.
  now destruct (last_Java_sp jfa =? NULL).
Qed.

(** The shared tail of the two resolvers on a returning call. *)
Lemma sender_from_anchor_ok
    (mem : memory) (map : option RegisterMap) (jfa_ptr : address) (heap : anchors)
    (jfa : JavaFrameAnchor) (fr : frame) (map' : RegisterMap) (heap' : anchors) :
  heap !! jfa_ptr = Some jfa ->
  sender_from_anchor mem map jfa_ptr heap = Ok (fr, map', heap') ->
  (walkable jfa = true -> heap' = heap) /\
  (walkable jfa = false ->
   heap' = (<[jfa_ptr := set_last_Java_pc jfa
                           (load mem (ptr_sub (last_Java_sp jfa) 1))]> heap)) /\
  (debug_build = true ->
   exists jfa',
     heap' !! jfa_ptr = Some jfa' /\ last_Java_pc jfa' <> NULL /\ walkable jfa' = true).
Proof.
  intros Hl H. unfold sender_from_anchor in H.
  rewrite (anchor_at_lookup _ _ _ Hl) in H. cbn in H.
  destruct (walkable jfa) eqn:W; cbn in H.
  - destruct map as [m|]; cbn in H; [|discriminate H].
    assert_passed H. rewrite (anchor_at_lookup _ _ _ Hl) in H. cbn in H.
    assert_passed H. inversion H; subst. repeat split; try discriminate.
    intros Hd. exists jfa. repeat split; try assumption.
    unfold walkable in W. apply andb_true_iff in W as [_ W].
    apply negb_true_iff, Z.eqb_neq in W. exact W.
  - unfold capture_last_Java_pc in H. cbn in H. do 2 assert_passed H.
    destruct map as [m|]; cbn in H; [|discriminate H].
    assert_passed H.
    rewrite (anchor_at_lookup _ _ (set_last_Java_pc jfa
               (load mem (ptr_sub (last_Java_sp jfa) 1)))) in H
      by apply lookup_insert_eq.
    cbn in H. assert_passed H. inversion H; subst. repeat split; try discriminate.
    intros Hd. eexists. split; [apply lookup_insert_eq|].
    apply assert_ok_inv in Hassert as [Hf | Hsp]; [congruence|].
    apply assert_ok_inv in Hassert2 as [Hf | Hpc]; [congruence|].
    cbn in Hpc. split.
    + cbn. apply negb_true_iff, Z.eqb_neq in Hpc. exact Hpc.
    + unfold walkable. cbn. now rewrite Hsp, Hpc.
Qed.

Lemma sender_from_anchor_once
    (mem : memory) (map : option RegisterMap) (jfa_ptr : address) (heap : anchors)
    (jfa : JavaFrameAnchor) :
  heap !! jfa_ptr = Some jfa ->
  captures_at_most_once (fun map heap => sender_from_anchor mem map jfa_ptr heap)
    mem jfa_ptr jfa map heap.
Proof.
  intros Hl fr map' heap' H.
  destruct (sender_from_anchor_ok _ _ _ _ _ _ _ _ Hl H) as (Hw & Hn & Hd).
  repeat split; try assumption.
  intros Hdbg. destruct (Hd Hdbg) as (jfa' & Hl' & Hpc & Hw').
  exists jfa'. repeat split; try assumption.
  intros fr2 map2 heap2 H2.
  destruct (sender_from_anchor_ok _ _ _ _ _ _ _ _ Hl' H2) as (Hw2 & _).
  auto.
Qed.

(** A resolver that runs [sender_from_anchor] after assertions that do not
    touch the anchors inherits the property. *)
Lemma captures_at_most_once_guarded
    (resolve : option RegisterMap -> anchors -> Res (frame * RegisterMap * anchors))
    (mem : memory) (jfa_ptr : address) :
  (forall map heap r, resolve map heap = Ok r ->
                      sender_from_anchor mem map jfa_ptr heap = Ok r) ->
  forall jfa map heap,
    heap !! jfa_ptr = Some jfa ->
    captures_at_most_once resolve mem jfa_ptr jfa map heap.
Proof.
  intros Hres jfa map heap Hl fr map' heap' H.
  destruct (sender_from_anchor_once mem map jfa_ptr heap jfa Hl fr map' heap'
              (Hres _ _ _ H)) as (Hw & Hn & Hd).
  repeat split; try assumption.
  intros Hdbg. destruct (Hd Hdbg) as (jfa' & Hl' & Hpc & Hw' & Hagain).
  exists jfa'. repeat split; try assumption.
  intros fr2 map2 heap2 H2. apply (Hagain fr2 map2 heap2). now apply Hres.
Qed.

(** C8. Anchor pc capture is at-most-once: [sender_for_entry_frame] and
    [sender_for_optimized_entry_frame] capture the pc of their anchor only
    when it is not walkable yet, after which (assertions on) the anchor's pc
    is non-null and a further resolution captures nothing; capturing the pc
    of an anchor whose pc is already non-null is a fatal assertion failure. *)
Theorem anchor_capture_at_most_once
    (mem : memory) (this : frame) (map : option RegisterMap) (heap : anchors)
    (jfa_ptr : address) (jfa : JavaFrameAnchor) :
  heap !! jfa_ptr = Some jfa ->
  (JavaCallWrapper_anchor (entry_frame_call_wrapper mem this) = jfa_ptr ->
   captures_at_most_once (sender_for_entry_frame mem this) mem jfa_ptr jfa map heap) /\
  (jfa_for_frame this = Ok jfa_ptr ->
   captures_at_most_once (sender_for_optimized_entry_frame mem this)
     mem jfa_ptr jfa map heap) /\
  (debug_build = true ->
   last_Java_pc jfa <> NULL ->
   returns (capture_last_Java_pc mem jfa) = false /\
   (last_Java_sp jfa <> NULL ->
    capture_last_Java_pc mem jfa = Fatal (AssertFailed "already walkable"))).
Proof.
  intros Hl. split; [|split].
  - intros Hptr. apply captures_at_most_once_guarded; [|exact Hl].
    intros map0 heap0 r H. unfold sender_for_entry_frame in H. rewrite Hptr in H.
    cbn in H. assert_passed H.
    destruct (anchor_at heap0 jfa_ptr); cbn in H; [|discriminate H].
    do 2 assert_passed H. exact H.
  - intros Hptr. apply captures_at_most_once_guarded; [|exact Hl].
    intros map0 heap0 r H. unfold sender_for_optimized_entry_frame in H.
    rewrite Hptr in H. cbn in H. assert_passed H.
    destruct (anchor_at heap0 jfa_ptr); cbn in H; [|discriminate H].
    destruct (if debug_build then _ else _); cbn in H; [|discriminate H].
    do 2 assert_passed H. exact H.
  - apply capture_last_Java_pc_twice.
Qed.

End AnchorCapture.

(** The entry frame of the sample VM: its anchor is not walkable; resolving
    the sender captures the word below the anchor's last sp, 0x100040. *)
Lemma anchor_capture_at_most_once_witness :
  exists fr map' heap',
    sender_for_entry_frame (R := Sample.runtime true) Sample.entry_stack
      Sample.entry_frame (Some Sample.empty_map) Sample.entry_anchors
    = Ok (fr, map', heap') /\
    heap' !! 0x3108 = Some (mkAnchor 0x3200 0x3240 0x100040).
Proof.
  destruct (sender_for_entry_frame (R := Sample.runtime true) Sample.entry_stack
              Sample.entry_frame (Some Sample.empty_map) Sample.entry_anchors)
    as [[[fr map'] heap']|e] eqn:E.
  - exists fr, map', heap'. split; [reflexivity|].
    destruct (anchor_capture_at_most_once (R := Sample.runtime true)
                Sample.entry_stack Sample.entry_frame (Some Sample.empty_map)
                Sample.entry_anchors 0x3108 (mkAnchor 0x3200 0x3240 NULL) eq_refl)
      as (H & _).
    destruct (H eq_refl fr map' heap' E) as (_ & Hn & _).
    rewrite (Hn eq_refl). apply lookup_insert_eq.
  - discriminate E.
Defined.

(** ** The result extractor *)

Section ResultExtractor.

Context `{L : FrameLayout} `{R : Runtime}.


Lemma interpreted_frame_expected (this : frame) :
  (debug_build = true -> is_interpreted_frame this = true) ->
  debug_build && negb (is_interpreted_frame this) = false.
Proof. destruct debug_build; [intros -> | intros _]; reflexivity. Qed.

(** C10. For the object and array kinds the top-of-stack address is never
    dereferenced when it is null: a non-native method with a null
    top-of-stack address loads nothing and yields the null object, and
    otherwise loads the word at that (non-null) address; a native method
    loads the frame's oop temp slot, and nothing else, and yields its
    contents. *)
Theorem interpreter_frame_result_object
    (mem : memory) (this : frame) (out : outputs) :
  (debug_build = true -> is_interpreted_frame this = true) ->
  let method := method_at (interpreter_frame_method mem this) in
  let tos_addr := interpreter_frame_tos_address mem this in
  result_type method = T_OBJECT \/ result_type method = T_ARRAY ->
  (is_native method = false ->
   ~ In NULL (fst (interpreter_frame_result mem this out)) /\
   (tos_addr = NULL ->
    interpreter_frame_result mem this out =
      ([], _ ← assert (is_in_heap_or_null NULL) "sanity check";
           Ok (result_type method, mkOutputs NULL (value_result out)))) /\
   (tos_addr <> NULL ->
    interpreter_frame_result mem this out =
      ([tos_addr],
       _ ← assert (is_in_heap_or_null (load mem tos_addr)) "sanity check";
       Ok (result_type method, mkOutputs (load mem tos_addr) (value_result out))))) /\
  (is_native method = true ->
   interpreter_frame_result mem this out =
     ([addr_at this interpreter_frame_oop_temp_offset],
      _ ← assert (is_in_heap_or_null (at_ mem this interpreter_frame_oop_temp_offset))
                 "sanity check";
      Ok (result_type method,
          mkOutputs (at_ mem this interpreter_frame_oop_temp_offset)
                    (value_result out)))).
Proof.
  intros Hpre method tos_addr Hkind. apply interpreted_frame_expected in Hpre.
  unfold interpreter_frame_result. rewrite Hpre. fold method.
  split.
  - intros Hn. rewrite Hn. fold tos_addr.
    destruct (Z.eqb_spec tos_addr NULL) as [Hnull | Hnn].
    + destruct Hkind as [-> | ->]; (split; [cbn; tauto|]); split; intros; congruence.
    + destruct Hkind as [-> | ->];
        (split; [cbn; intros [Heq | []]; congruence|]); split; intros; congruence.
  - intros Hn. rewrite Hn. destruct Hkind as [-> | ->]; reflexivity.
Qed.

End ResultExtractor.

(** A frame of a non-native object method with a null top-of-stack address:
    nothing is loaded and the object result is null. *)
Lemma interpreter_frame_result_object_witness :
  interpreter_frame_result (L := Sample.x86_64_layout) (R := Sample.runtime true)
    Sample.null_tos_stack Sample.null_tos_frame (mkOutputs 7 9)
  = ([], Ok (T_OBJECT, mkOutputs NULL 9)).
Proof.
  exact (proj1 (proj2 (proj1 (interpreter_frame_result_object
                  (L := Sample.x86_64_layout) (R := Sample.runtime true)
                  Sample.null_tos_stack Sample.null_tos_frame (mkOutputs 7 9)
                  (fun _ => eq_refl) (or_introl eq_refl)) eq_refl)) eq_refl).
Defined.

(** * Further properties of the validators *)

Section ValidatorFacts.

Context `{L : FrameLayout} `{R : Runtime}.

Lemma misaligned_spec (p : address) : misaligned p = false <-> p mod 8 = 0.
Proof.
  unfold misaligned, wordSize. change (8 - 1) with (Z.ones 3).
  rewrite Z.land_ones by lia. change (2 ^ 3) with 8.
  rewrite negb_false_iff, Z.eqb_eq. tauto.
Qed.

(** The checks of [is_interpreted_frame_valid] as one conjunction. *)
Lemma is_interpreted_frame_valid_checks
    (thread : JavaThread) (mem : memory) (f : frame) :
  assert (is_interpreted_frame f) "Not an interpreted frame" = Ok tt ->
  is_interpreted_frame_valid thread mem f =
    Ok (negb (fp f =? 0) && negb (misaligned (fp f)) &&
        negb (sp f =? 0) && negb (misaligned (sp f)) &&
        negb (ptr_add (fp f) interpreter_frame_initial_sp_offset <? sp f) &&
        negb (fp f <=? sp f) &&
        is_valid_method (at_ mem f interpreter_frame_method_offset) &&
        negb (1024 + max_stack (method_at (at_ mem f interpreter_frame_method_offset))
                     * stackElementSize
              <? ptr_diff (fp f) (unextended_sp f)) &&
        negb (validate_bci_from_bcp (method_at (at_ mem f interpreter_frame_method_offset))
                (interpreter_frame_bcp mem f) <? 0) &&
        MetaspaceObj_is_valid (at_ mem f interpreter_frame_cache_offset) &&
        is_in_stack_range_incl thread (at_ mem f interpreter_frame_locals_offset) (fp f)).
Proof.
  intros Ha. unfold is_interpreted_frame_valid. rewrite Ha. cbn.
  destruct (fp f =? 0); cbn; [reflexivity|].
  destruct (misaligned (fp f)); cbn; [reflexivity|].
  destruct (sp f =? 0); cbn; [reflexivity|].
  destruct (misaligned (sp f)); cbn; [reflexivity|].
  destruct (_ <? sp f); cbn; [reflexivity|].
  destruct (fp f <=? sp f); cbn; [reflexivity|].
  destruct (is_valid_method _); cbn; [|reflexivity].
  destruct (_ <? ptr_diff _ _); cbn; [reflexivity|].
  destruct (_ <? 0); cbn; [reflexivity|].
  destruct (MetaspaceObj_is_valid _); reflexivity.
Qed.

(** X1. [is_interpreted_frame_valid] accepts a frame exactly when fp and sp
    are non-null and word-aligned, sp lies below fp and not above the
    initial expression-stack slot, the method slot holds a valid method, the
    frame is no larger than 1024 words plus the method's operand stack, the
    bytecode pointer validates, the cache slot holds a valid metaspace
    object and the locals pointer lies in the stack at or above fp. *)
Theorem is_interpreted_frame_valid_accepts
    (thread : JavaThread) (mem : memory) (f : frame) :
  is_interpreted_frame_valid thread mem f = Ok true <->
  (debug_build = true -> is_interpreted_frame f = true) /\
  fp f <> 0 /\ fp f mod 8 = 0 /\ sp f <> 0 /\ sp f mod 8 = 0 /\
  sp f <= ptr_add (fp f) interpreter_frame_initial_sp_offset /\
  sp f < fp f /\
  is_valid_method (at_ mem f interpreter_frame_method_offset) = true /\
  ptr_diff (fp f) (unextended_sp f)
    <= 1024 + max_stack (method_at (at_ mem f interpreter_frame_method_offset))
              * stackElementSize /\
  0 <= validate_bci_from_bcp (method_at (at_ mem f interpreter_frame_method_offset))
         (interpreter_frame_bcp mem f) /\
  MetaspaceObj_is_valid (at_ mem f interpreter_frame_cache_offset) = true /\
  fp f <= at_ mem f interpreter_frame_locals_offset < stack_base thread.
Proof.
  destruct (assert_cases (is_interpreted_frame f) "Not an interpreted frame")
    as [Ha | (Ha & Hd & Hc)].
  - rewrite (is_interpreted_frame_valid_checks _ _ _ Ha).
    apply assert_ok_inv in Ha.
    split.
    + intros H. injection H as H.
      rewrite !andb_true_iff, !negb_true_iff in H.
      rewrite !misaligned_spec, !Z.eqb_neq, !Z.ltb_ge, Z.leb_gt, incl_range_spec in H.
      destruct H as ((((((((((? & ?) & ?) & ?) & ?) & ?) & ?) & ?) & ?) & ?) & ?).
      repeat split; try assumption; try lia.
      intros Hd. destruct Ha; congruence.
    + intros (_ & ? & ? & ? & ? & ? & ? & ? & ? & ? & ? & ?). f_equal.
      rewrite !andb_true_iff, !negb_true_iff.
      rewrite !misaligned_spec, !Z.eqb_neq, !Z.ltb_ge, Z.leb_gt, incl_range_spec.
      repeat split; try assumption; lia.
  - unfold is_interpreted_frame_valid. rewrite Ha. cbn. split; [discriminate|].
    intros (Hp & _). rewrite (Hp Hd) in Hc. discriminate.
Qed.

(** X2. A frame whose fp or sp is null or not word-aligned, or whose fp is not
    above its sp, is rejected whatever the stack holds. *)
Theorem is_interpreted_frame_valid_rejects_malformed
    (thread : JavaThread) (mem : memory) (f : frame) :
  (debug_build = true -> is_interpreted_frame f = true) ->
  fp f = 0 \/ sp f = 0 \/ fp f mod 8 <> 0 \/ sp f mod 8 <> 0 \/ fp f <= sp f ->
  is_interpreted_frame_valid thread mem f = Ok false.
Proof.
  intros Hp Hbad.
  assert (Ha : assert (is_interpreted_frame f) "Not an interpreted frame" = Ok tt).
  { unfold assert. destruct debug_build; [rewrite Hp|]; reflexivity. }
  rewrite (is_interpreted_frame_valid_checks _ _ _ Ha). f_equal.
  destruct (Z.eqb_spec (fp f) 0); [reflexivity|].
  destruct (misaligned (fp f)) eqn:Mf; [reflexivity|].
  destruct (Z.eqb_spec (sp f) 0); [reflexivity|].
  destruct (misaligned (sp f)) eqn:Ms; [reflexivity|].
  apply misaligned_spec in Mf, Ms. cbn.
  destruct (_ <? sp f); [reflexivity|]. cbn.
  destruct (Z.leb_spec (fp f) (sp f)); [reflexivity|]. lia.
Qed.

(** X3. An accepted frame has its sp in the usable stack and its unextended
    sp in the stack at or above sp.  If it has an owning code region, its pc
    lies in the region's code and the region is frame-complete at pc unless
    it is neither a compiled method, an adapter nor a runtime stub; if it has
    none, its fp lies strictly between sp and the stack top and the
    return-address slot above fp is not null. *)
Theorem safe_for_sender_accepted_frame
    (thread : JavaThread) (mem : memory) (f : frame) :
  safe_for_sender thread mem f = Ok true ->
  stack_reserved_zone_base thread <= sp f /\
  sp f <= unextended_sp f < stack_base thread /\
  (cb f <> NULL ->
   code_contains (blob_at (cb f)) (pc f) = true /\
   (is_frame_complete_at (blob_at (cb f)) (pc f) = true \/
    is_compiled (blob_at (cb f)) || is_adapter_blob (blob_at (cb f))
      || is_runtime_stub (blob_at (cb f)) = false)) /\
  (cb f = NULL ->
   sp f < fp f < stack_base thread /\ at_ mem f return_addr_offset <> NULL).
Proof.
  unfold safe_for_sender. intros H.
  destruct (is_in_usable_stack thread (sp f)) eqn:Hu; [|discriminate H].
  destruct (is_in_stack_range_incl thread (unextended_sp f) (sp f)) eqn:Hi;
    [|discriminate H].
  cbn in H. apply incl_range_spec in Hu, Hi.
  split; [lia|]. split; [lia|]. split.
  - intros Hcb. apply Z.eqb_neq in Hcb. rewrite Hcb in H. cbn in H.
    unfold safe_for_sender_in_code_cache in H.
    destruct (is_frame_complete_at _ _); cbn in H.
    + destruct (code_contains _ _); [auto | discriminate H].
    + destruct (_ || _); [discriminate H|]. cbn in H.
      destruct (code_contains _ _); [auto | discriminate H].
  - intros Hcb. apply Z.eqb_eq in Hcb. rewrite Hcb in H. cbn in H.
    destruct (fp_is_safe thread f) eqn:Hs; [|discriminate H]. cbn in H.
    unfold fp_is_safe in Hs. apply andb_true_iff in Hs as [Hs _].
    apply excl_range_spec in Hs. split; [exact Hs|].
    destruct (Z.eqb_spec (at_ mem f return_addr_offset) NULL); [discriminate H | assumption].
Qed.

(** For a frame known to the code cache that is neither an entry nor an
    optimized entry frame, acceptance is acceptance of the provisional
    sender. *)
Lemma safe_for_sender_validates_sender
    (thread : JavaThread) (mem : memory) (f : frame) (s : sender_info) (r : Res bool) :
  (cb f =? NULL) = false ->
  is_entry_frame f = false ->
  is_optimized_entry_frame f = false ->
  provisional_sender thread mem f (fp_is_safe thread f) = Some s ->
  safe_for_sender thread mem f = r ->
  r = Ok false \/ r = validate_sender thread mem (fix_return_barrier thread mem f s).
Proof.
  intros Hcb He Ho Hp <-. unfold safe_for_sender, safe_for_sender_in_code_cache.
  rewrite Hcb, He, Ho, Hp. cbn.
  repeat match goal with |- context [if ?c then _ else _] => destruct c; auto end.
Qed.

(** X4. When the provisional sender's pc is not interpreter code, the frame is
    accepted only if that pc is non-null and owned by a live code region
    that contains it and is not an adapter; if the pc returns to the call
    stub, the saved fp lies above the sender sp and the call wrapper above
    the sender's fp, within the stack; otherwise the region is a compiled
    method with a positive frame size, and the pc is neither one of its
    deoptimization entries nor in a method-handle intrinsic. *)
Theorem safe_for_sender_code_cache_sender
    (thread : JavaThread) (mem : memory) (f : frame) (s : sender_info) :
  (cb f =? NULL) = false ->
  is_entry_frame f = false ->
  is_optimized_entry_frame f = false ->
  provisional_sender thread mem f (fp_is_safe thread f) = Some s ->
  Interpreter_contains (sender_pc (fix_return_barrier thread mem f s)) = false ->
  safe_for_sender thread mem f = Ok true ->
  let s' := fix_return_barrier thread mem f s in
  let sender_blob := blob_at (find_blob_unsafe (sender_pc s')) in
  sender_pc s' <> NULL /\ find_blob_unsafe (sender_pc s') <> NULL /\
  is_zombie sender_blob = false /\ is_unloaded sender_blob = false /\
  code_contains sender_blob (sender_pc s') = true /\
  is_adapter_blob sender_blob = false /\
  if returns_to_call_stub (sender_pc s') then
    sender_sp s' < saved_fp s' < stack_base thread /\
    let sender :=
      frame_ctor mem (sender_sp s') (sender_unextended_sp s') (saved_fp s')
        (sender_pc s') in
    fp sender < entry_frame_call_wrapper mem sender < stack_base thread
  else
    exists nm,
      kind sender_blob = CompiledBlob nm /\
      0 < frame_size sender_blob /\
      is_deopt_entry nm (sender_pc s') = false /\
      is_deopt_mh_entry nm (sender_pc s') = false /\
      is_method_handle_intrinsic nm = false.
Proof.
  intros Hcb He Ho Hp Hin Hsafe s' sender_blob.
  destruct (safe_for_sender_validates_sender _ _ _ _ _ Hcb He Ho Hp Hsafe) as [H | H];
    [discriminate H|].
  symmetry in H. fold s' in H, Hin. unfold validate_sender in H.
  rewrite Hin in H. fold sender_blob in H.
  destruct (Z.eqb_spec (sender_pc s') NULL); [discriminate H|].
  destruct (Z.eqb_spec (find_blob_unsafe (sender_pc s')) NULL); [discriminate H|].
  cbn in H.
  destruct (is_zombie sender_blob); [discriminate H|].
  destruct (is_unloaded sender_blob); [discriminate H|]. cbn in H.
  destruct (code_contains sender_blob (sender_pc s')); [|discriminate H]. cbn in H.
  destruct (is_adapter_blob sender_blob); [discriminate H|].
  do 6 (split; [assumption || reflexivity|]).
  destruct (returns_to_call_stub (sender_pc s')).
  - destruct (is_in_stack_range_excl thread (saved_fp s') (sender_sp s')) eqn:Hx;
      [|discriminate H]. cbn in H. injection H as H.
    apply excl_range_spec in Hx, H. auto.
  - destruct (is_optimized_entry_blob sender_blob); [discriminate H|].
    unfold as_compiled_method_or_null, is_compiled in H.
    destruct (kind sender_blob) as [nm| | | | |] eqn:Hk;
      try (destruct (frame_size sender_blob <=? 0);
           [destruct (assert _ _) in H|]; discriminate H).
    destruct (is_deopt_mh_entry nm _) eqn:?; [discriminate H|].
    destruct (is_deopt_entry nm _) eqn:?; [discriminate H|].
    destruct (is_method_handle_intrinsic nm) eqn:?; [discriminate H|]. cbn in H.
    destruct (Z.leb_spec (frame_size sender_blob) 0).
    + destruct (assert _ _) in H; discriminate H.
    + exists nm. auto.
Qed.

End ValidatorFacts.

(** The interpreted caller of the sample VM's compiled frame is a valid
    interpreted frame. *)
Lemma is_interpreted_frame_valid_accepts_witness :
  is_interpreted_frame_valid (L := Sample.x86_64_layout) (R := Sample.runtime true)
    Sample.thread Sample.interpreted_caller_stack
    (mkframe 0x3020 0x3080 0x3020 0x200010 200 not_deoptimized) = Ok true.
Proof.
  apply (proj2 (is_interpreted_frame_valid_accepts (L := Sample.x86_64_layout)
                  (R := Sample.runtime true) _ _ _)).
  repeat split; try reflexivity; try discriminate.
Defined.

(** The same frame with its fp moved up by one byte is rejected. *)
Lemma is_interpreted_frame_valid_rejects_malformed_witness :
  is_interpreted_frame_valid (L := Sample.x86_64_layout) (R := Sample.runtime true)
    Sample.thread Sample.interpreted_caller_stack
    (mkframe 0x3020 0x3081 0x3020 0x200010 200 not_deoptimized) = Ok false.
Proof.
  apply (is_interpreted_frame_valid_rejects_malformed (L := Sample.x86_64_layout)
           (R := Sample.runtime true)).
  - reflexivity.
  - right. right. left. discriminate.
Defined.

(** The accepted compiled frame of the sample VM: its pc lies in the code of
    its nmethod. *)
Lemma safe_for_sender_accepted_frame_witness :
  0x2000 <= 0x3000 /\ 0x3000 <= 0x3000 < 0x8000 /\
  code_contains Sample.nmethod_blob 0x100020 = true.
Proof.
  destruct (safe_for_sender_accepted_frame (L := Sample.x86_64_layout)
              (R := Sample.runtime true) Sample.thread Sample.compiled_caller_stack
              Sample.compiled_frame eq_refl) as (H1 & H2 & H3 & _).
  split; [exact H1|]. split; [exact H2|].
  destruct H3 as [H3 _]; [discriminate | exact H3].
Defined.

(** Its sender pc 0x100040 belongs to the nmethod, whose frames have 4
    words. *)
Lemma safe_for_sender_code_cache_sender_witness :
  exists nm,
    kind Sample.nmethod_blob = CompiledBlob nm /\
    0 < frame_size Sample.nmethod_blob /\
    is_deopt_entry nm 0x100040 = false /\
    is_deopt_mh_entry nm 0x100040 = false /\
    is_method_handle_intrinsic nm = false.
Proof.
  destruct (safe_for_sender_code_cache_sender (L := Sample.x86_64_layout)
              (R := Sample.runtime true) Sample.thread Sample.compiled_caller_stack
              Sample.compiled_frame (mkSender 0x3020 0x3020 0x100040 0x3100)
              eq_refl eq_refl eq_refl eq_refl eq_refl eq_refl)
    as (_ & _ & _ & _ & _ & _ & H).
  exact H.
Defined.


(** * Further properties of the deoptimization patcher *)

Section PatcherFacts.

Context `{R : Runtime}.

Ltac assert_passed H :=
  match type of H with
  | context [assert ?c ?m] =>
      let E := fresh "Hassert" in
      destruct (assert c m) as [[]|] eqn:E; cbn in H; [|discriminate H]
  end.

Lemma assert_debug_inv (c : bool) (msg : string) (u : unit) :
  debug_build = true -> assert c msg = Ok u -> c = true.
Proof. intros Hd H. apply assert_ok_inv in H as [H | H]; congruence. Qed.

(** X6. A returning [patch_pc] writes the return-address slot [sp[-1]] and
    nothing else on the stack, and leaves the frame's sp, fp, unextended sp
    and owning region as they were. *)
Theorem patch_pc_writes_one_slot
    (thread : JavaThread) (new_pc : address) (this this' : frame) (mem mem' : memory) :
  patch_pc thread new_pc (this, mem) = Ok (this', mem') ->
  sp this' = sp this /\ fp this' = fp this /\
  unextended_sp this' = unextended_sp this /\ cb this' = cb this /\
  forall a, a <> pc_addr this -> mem' !! a = mem !! a.
Proof.
  intros H. apply patch_pc_ok_inv in H as [-> ->].
  destruct (patched_frame_fields (store mem (pc_addr this) new_pc) this new_pc)
    as (-> & -> & -> & ->).
  repeat split. intros a Ha. unfold store. now apply lookup_insert_ne.
Qed.

(** X7. With assertions on, a returning [patch_pc] was called with a target in
    the frame's own code region and on a slot that did not hold the
    continuation return barrier; if the frame is now deoptimized its logical
    pc is the one it had before the call; if it is a compiled frame its pc
    is not a deoptimization entry of its method; and it agrees with the
    frame constructed afresh from its sp, unextended sp, fp and the
    target. *)
Theorem patch_pc_asserted
    (thread : JavaThread) (new_pc : address) (this this' : frame) (mem mem' : memory) :
  debug_build = true ->
  patch_pc thread new_pc (this, mem) = Ok (this', mem') ->
  cb this = find_blob new_pc /\
  is_return_barrier_entry (load mem (pc_addr this)) = false /\
  (deopt_state this' = is_deoptimized -> pc this' = pc this) /\
  (is_compiled_frame this' = true ->
   exists cm, as_compiled_method_or_null (blob_at (cb this')) = Some cm /\
              is_deopt_entry cm (pc this') = false) /\
  is_deoptimized_frame
    (frame_ctor mem' (sp this) (unextended_sp this) (fp this) new_pc)
    = is_deoptimized_frame this' /\
  pc (frame_ctor mem' (sp this) (unextended_sp this) (fp this) new_pc) = pc this' /\
  raw_pc (frame_ctor mem' (sp this) (unextended_sp this) (fp this) new_pc)
    = raw_pc this'.
Proof.
  intros Hd H.
  destruct (patch_pc_ok_inv _ _ _ _ _ _ H) as [Hm Ht].
  unfold patch_pc in H. cbn in H. do 3 assert_passed H.
  apply (assert_debug_inv _ _ _ Hd) in Hassert, Hassert0.
  apply Z.eqb_eq in Hassert. apply negb_true_iff in Hassert0.
  split; [exact Hassert|]. split; [exact Hassert0|].
  rewrite <- Hm in H. unfold patched_frame in Ht.
  destruct (negb (get_deopt_original_pc mem' (set_pc this new_pc) =? NULL)) eqn:E;
    cbn in H; repeat assert_passed H; inversion H; subst this'; clear H;
    repeat match goal with
           | Ha : assert _ _ = Ok _ |- _ => apply (assert_debug_inv _ _ _ Hd) in Ha
           end.
  - apply Z.eqb_eq in Hassert2.
    rewrite !andb_true_iff, bool_decide_eq_true, !Z.eqb_eq in Hassert4.
    destruct Hassert4 as ((? & ?) & ?).
    split; [intros _; cbn; exact Hassert2|]. split; [|auto].
    intros Hc. rewrite Hc in Hassert3. cbn in Hassert3 |- *.
    destruct (as_compiled_method_or_null (blob_at (cb this))) as [cm|];
      [|discriminate]. exists cm. split; [reflexivity|].
    now apply negb_true_iff.
  - rewrite !andb_true_iff, bool_decide_eq_true, !Z.eqb_eq in Hassert3.
    destruct Hassert3 as ((? & ?) & ?).
    split; [cbn; discriminate|]. split; [|auto].
    intros Hc. rewrite Hc in Hassert2. cbn in Hassert2 |- *.
    destruct (as_compiled_method_or_null (blob_at (cb this))) as [cm|];
      [|discriminate]. exists cm. split; [reflexivity|].
    now apply negb_true_iff.
Qed.

(** X8. With assertions on, [patch_pc] stops the VM when the target is not in
    the frame's code region ("unexpected pc"), when the slot holds the
    continuation return barrier ("return barrier"), and when the original pc
    recovered after patching is not the pc the frame had ("expected original
    PC to be stored before patching"). *)
Theorem patch_pc_fatal
    (thread : JavaThread) (new_pc : address) (this : frame) (mem : memory) :
  debug_build = true ->
  (cb this <> find_blob new_pc ->
   patch_pc thread new_pc (this, mem) = Fatal (AssertFailed "unexpected pc")) /\
  (cb this = find_blob new_pc ->
   is_return_barrier_entry (load mem (pc_addr this)) = true ->
   patch_pc thread new_pc (this, mem) = Fatal (AssertFailed "return barrier")) /\
  (cb this = find_blob new_pc ->
   is_return_barrier_entry (load mem (pc_addr this)) = false ->
   return_address_consistent this new_pc (load mem (pc_addr this)) = true ->
   get_deopt_original_pc (store mem (pc_addr this) new_pc) (set_pc this new_pc) <> NULL ->
   get_deopt_original_pc (store mem (pc_addr this) new_pc) (set_pc this new_pc)
     <> pc this ->
   patch_pc thread new_pc (this, mem) =
     Fatal (AssertFailed "expected original PC to be stored before patching")).
Proof.
  intros Hd. unfold patch_pc. cbn. repeat split.
  - intros Hne. apply Z.eqb_neq in Hne. rewrite Hne.
    now rewrite assert_debug_false.
  - intros -> Hb. rewrite Z.eqb_refl, assert_true, Hb. cbn.
    now rewrite assert_debug_false.
  - intros -> Hb Hc Hn Ho. rewrite Z.eqb_refl, Hb, Hc, !assert_true. cbn.
    apply Z.eqb_neq in Hn, Ho. rewrite Hn, Ho. cbn.
    now rewrite assert_debug_false.
Qed.

End PatcherFacts.

(** Patching the sample compiled frame to its deopt handler leaves the word
    at 0x3010 (the original-pc slot) and the frame's sp alone. *)
Lemma patch_pc_writes_one_slot_witness :
  exists this' mem',
    patch_pc (R := Sample.runtime true) Sample.thread Sample.deopt_handler
      (Sample.compiled_frame, Sample.patch_stack) = Ok (this', mem') /\
    sp this' = 0x3000 /\ mem' !! 0x3010 = Some 0x100020.
Proof.
  destruct (patch_pc (R := Sample.runtime true) Sample.thread Sample.deopt_handler
              (Sample.compiled_frame, Sample.patch_stack)) as [[this' mem']|e] eqn:E.
  - exists this', mem'. split; [reflexivity|].
    destruct (patch_pc_writes_one_slot (R := Sample.runtime true) _ _ _ _ _ _ E)
      as (Hsp & _ & _ & _ & Hmem).
    split; [exact Hsp|]. rewrite Hmem; [reflexivity | discriminate].
  - discriminate E.
Defined.

(** After that patch the frame is deoptimized and its logical pc is still
    0x100020. *)
Lemma patch_pc_asserted_witness :
  exists this' mem',
    patch_pc (R := Sample.runtime true) Sample.thread Sample.deopt_handler
      (Sample.compiled_frame, Sample.patch_stack) = Ok (this', mem') /\
    (deopt_state this' = is_deoptimized -> pc this' = 0x100020).
Proof.
  destruct (patch_pc (R := Sample.runtime true) Sample.thread Sample.deopt_handler
              (Sample.compiled_frame, Sample.patch_stack)) as [[this' mem']|e] eqn:E.
  - exists this', mem'. split; [reflexivity|].
    destruct (patch_pc_asserted (R := Sample.runtime true) _ _ _ _ _ _ eq_refl E)
      as (_ & _ & H & _).
    exact H.
  - discriminate E.
Defined.

(** Patching the compiled frame to an interpreter pc, and patching it while
    its slot holds the return barrier, stop the VM. *)
Lemma patch_pc_fatal_witness :
  patch_pc (R := Sample.runtime true) Sample.thread 0x200010
    (Sample.compiled_frame, Sample.patch_stack)
  = Fatal (AssertFailed "unexpected pc") /\
  patch_pc (R := Sample.runtime true) Sample.thread Sample.deopt_handler
    (Sample.compiled_frame, SampleWalk.barrier_slot_stack)
  = Fatal (AssertFailed "return barrier").
Proof.
  destruct (patch_pc_fatal (R := Sample.runtime true) Sample.thread 0x200010
              Sample.compiled_frame Sample.patch_stack eq_refl) as (H1 & _).
  destruct (patch_pc_fatal (R := Sample.runtime true) Sample.thread
              Sample.deopt_handler Sample.compiled_frame
              SampleWalk.barrier_slot_stack eq_refl) as (_ & H2 & _).
  split; [apply H1; discriminate | apply H2; reflexivity].
Defined.

(** * Further properties of the anchors and the entry-frame resolvers *)

Section AnchorFacts.

Context `{R : Runtime}.

Ltac assert_passed H :=
  match type of H with
  | context [assert ?c ?m] =>
      let E := fresh "Hassert" in
      destruct (assert c m) as [[]|] eqn:E; cbn in H; [|discriminate H]
  end.

Lemma not_walkable_pc (jfa : JavaFrameAnchor) :
  walkable jfa = false -> last_Java_sp jfa <> NULL -> last_Java_pc jfa = NULL.
Proof.
  unfold walkable. intros Hw Hsp. apply Z.eqb_neq in Hsp. rewrite Hsp in Hw.
  cbn in Hw. apply negb_false_iff in Hw. now apply Z.eqb_eq.
Qed.

(** X9. [make_walkable] changes at most the pc of the anchor, and only by
    capturing the word below the last sp of an anchor that has a last frame
    and is not walkable; with assertions on the result is walkable unless
    there is no last frame; calling it again changes nothing.  It stops the
    VM only with assertions on, on an anchor that has a last frame and no
    pc, when the thread is not the current one or the captured word is
    null. *)
Theorem make_walkable_spec
    (thread : JavaThread) (mem : memory) (jfa : JavaFrameAnchor) :
  (forall jfa',
      make_walkable thread mem jfa = Ok jfa' ->
      (jfa' = jfa \/
       walkable jfa = false /\ last_Java_sp jfa <> NULL /\
       jfa' = set_last_Java_pc jfa (load mem (ptr_sub (last_Java_sp jfa) 1))) /\
      (debug_build = true -> last_Java_sp jfa = NULL \/ walkable jfa' = true) /\
      make_walkable thread mem jfa' = Ok jfa') /\
  (forall e,
      make_walkable thread mem jfa = Fatal e ->
      debug_build = true /\ last_Java_sp jfa <> NULL /\ last_Java_pc jfa = NULL /\
      (e = AssertFailed "not current thread" /\ is_current_thread thread = false \/
       e = AssertFailed "something went wrong" /\
       load mem (ptr_sub (last_Java_sp jfa) 1) = NULL)).
Proof.
  unfold make_walkable.
  destruct (Z.eqb_spec (last_Java_sp jfa) NULL) as [Hsp | Hsp].
  { split; [|discriminate]. intros jfa' H. injection H as <-.
    pose proof Hsp as Hsp0. apply Z.eqb_eq in Hsp. rewrite Hsp. repeat split; auto. }
  destruct (walkable jfa) eqn:Hw.
  { split; [|discriminate]. intros jfa' H. injection H as <-.
    apply Z.eqb_neq in Hsp. rewrite Hsp, Hw. repeat split; auto. }
  pose proof (not_walkable_pc jfa Hw Hsp) as Hpc.
  unfold capture_last_Java_pc.
  assert (Hsp' : negb (last_Java_sp jfa =? NULL) = true)
    by now apply negb_true_iff, Z.eqb_neq.
  rewrite Hsp', Hpc, Z.eqb_refl, !assert_true. cbn.
  set (jfa1 := set_last_Java_pc jfa (load mem (ptr_sub (last_Java_sp jfa) 1))).
  assert (Hw1 : walkable jfa1 =
                negb (load mem (ptr_sub (last_Java_sp jfa) 1) =? NULL)).
  { unfold walkable, jfa1. cbn. now rewrite Hsp'. }
  split.
  - intros jfa' H. assert_passed H. assert_passed H. injection H as <-.
    split; [right; auto|]. split.
    + intros Hd. right. unfold assert in Hassert0. rewrite Hd in Hassert0.
      destruct (walkable jfa1); [reflexivity | discriminate].
    + change (last_Java_sp jfa1) with (last_Java_sp jfa).
      apply Z.eqb_neq in Hsp. rewrite Hsp.
      destruct (walkable jfa1) eqn:Hw2; [reflexivity|].
      assert (Hpc1 : last_Java_pc jfa1 = NULL).
      { apply not_walkable_pc; [exact Hw2 | now apply Z.eqb_neq]. }
      rewrite Hpc1, Z.eqb_refl, !assert_true. cbn.
      change (set_last_Java_pc jfa1 (load mem (ptr_sub (last_Java_sp jfa) 1)))
        with jfa1.
      rewrite Hw2, Hassert0. reflexivity.
  - intros e H.
    destruct (assert_cases (is_current_thread thread) "not current thread")
      as [Ha | (Ha & Hd & Hc)]; rewrite Ha in H; cbn in H.
    + destruct (assert_cases (walkable jfa1) "something went wrong")
        as [Hb | (Hb & Hd & Hc)]; rewrite Hb in H; cbn in H; [discriminate H|].
      injection H as <-. repeat split; try assumption. right. split; [reflexivity|].
      rewrite Hw1 in Hc. apply negb_false_iff in Hc. now apply Z.eqb_eq.
    + injection H as <-. repeat split; auto.
Qed.

(** The shared tail of the resolvers: what the sender, the map and the
    anchors are when it returns. *)
Lemma sender_from_anchor_sender
    (mem : memory) (map : option RegisterMap) (jfa_ptr : address) (heap : anchors)
    (jfa : JavaFrameAnchor) (fr : frame) (map' : RegisterMap) (heap' : anchors) :
  heap !! jfa_ptr = Some jfa ->
  sender_from_anchor mem map jfa_ptr heap = Ok (fr, map', heap') ->
  exists m jfa',
    map = Some m /\ map' = RegisterMap_clear m /\
    heap' !! jfa_ptr = Some jfa' /\
    last_Java_sp jfa' = last_Java_sp jfa /\ last_Java_fp jfa' = last_Java_fp jfa /\
    fr = frame_ctor3 mem (last_Java_sp jfa') (last_Java_fp jfa') (last_Java_pc jfa') /\
    (forall p, p <> jfa_ptr -> heap' !! p = heap !! p) /\
    (debug_build = true ->
     include_argument_oops map' = true /\ last_Java_pc jfa' <> NULL).
Proof.
  intros Hl H. unfold sender_from_anchor in H.
  rewrite (anchor_at_lookup _ _ _ Hl) in H. cbn in H.
  destruct (walkable jfa) eqn:Hw; cbn in H.
  - destruct map as [m|]; cbn in H; [|discriminate H].
    assert_passed H. rewrite (anchor_at_lookup _ _ _ Hl) in H. cbn in H.
    assert_passed H. inversion H; subst. exists m, jfa.
    repeat split; try assumption; try reflexivity.
    + eapply assert_ok_inv in Hassert as [|]; [congruence | eassumption].
    + eapply assert_ok_inv in Hassert0 as [Hf | Hp]; [congruence|].
      now apply negb_true_iff, Z.eqb_neq in Hp.
  - unfold capture_last_Java_pc in H. cbn in H. do 2 assert_passed H.
    destruct map as [m|]; cbn in H; [|discriminate H].
    assert_passed H.
    rewrite (anchor_at_lookup _ _ (set_last_Java_pc jfa
               (load mem (ptr_sub (last_Java_sp jfa) 1)))) in H
      by apply lookup_insert_eq.
    cbn in H. assert_passed H. inversion H; subst.
    exists m, (set_last_Java_pc jfa (load mem (ptr_sub (last_Java_sp jfa) 1))).
    repeat split; try reflexivity.
    + apply lookup_insert_eq.
    + intros p Hp. now apply lookup_insert_ne.
    + eapply assert_ok_inv in Hassert1 as [|]; [congruence | eassumption].
    + eapply assert_ok_inv in Hassert2 as [Hf | Hp]; [congruence|].
      now apply negb_true_iff, Z.eqb_neq in Hp.
Qed.

(** X10. When [sender_for_entry_frame] returns, a register map was passed and
    comes back cleared, the sender is the frame constructed from the last
    Java sp, fp and pc of the call wrapper's anchor, and no other anchor has
    changed; with assertions on, that anchor's last sp lies above the
    frame's sp, the cleared map includes argument oops and the sender's pc
    is not null. *)
Theorem sender_for_entry_frame_sender
    (mem : memory) (this : frame) (map : option RegisterMap) (heap : anchors)
    (fr : frame) (map' : RegisterMap) (heap' : anchors) :
  sender_for_entry_frame mem this map heap = Ok (fr, map', heap') ->
  exists m jfa jfa',
    map = Some m /\ map' = RegisterMap_clear m /\
    heap !! JavaCallWrapper_anchor (entry_frame_call_wrapper mem this) = Some jfa /\
    heap' !! JavaCallWrapper_anchor (entry_frame_call_wrapper mem this) = Some jfa' /\
    last_Java_sp jfa' = last_Java_sp jfa /\ last_Java_fp jfa' = last_Java_fp jfa /\
    fr = frame_ctor3 mem (last_Java_sp jfa') (last_Java_fp jfa') (last_Java_pc jfa') /\
    (forall p, p <> JavaCallWrapper_anchor (entry_frame_call_wrapper mem this) ->
               heap' !! p = heap !! p) /\
    (debug_build = true ->
     sp this < last_Java_sp jfa /\ last_Java_sp jfa <> NULL /\
     include_argument_oops map' = true /\ last_Java_pc jfa' <> NULL).
Proof.
  intros H. unfold sender_for_entry_frame in H. cbn in H. assert_passed H.
  unfold anchor_at in H at 1.
  destruct (heap !! JavaCallWrapper_anchor (entry_frame_call_wrapper mem this))
    as [jfa|] eqn:Hl; cbn in H; [|discriminate H].
  do 2 assert_passed H.
  destruct (sender_from_anchor_sender _ _ _ _ _ _ _ _ Hl H)
    as (m & jfa' & -> & -> & Hl' & Hsp & Hfp & -> & Hother & Hdbg).
  exists m, jfa, jfa'. do 8 (split; [assumption || reflexivity|]).
  intros Hd. destruct (Hdbg Hd) as [Hi Hp]. repeat split; try assumption.
  - eapply assert_ok_inv in Hassert1 as [|Hlt]; [congruence|].
    now apply Z.ltb_lt.
  - eapply assert_ok_inv in Hassert0 as [|Hn]; [congruence|].
    unfold entry_frame_is_first in Hn. now apply negb_true_iff, Z.eqb_neq in Hn.
Qed.

(** X11. With assertions on, [sender_for_optimized_entry_frame] stops the VM
    on a frame whose region is not an optimized entry blob.  When it
    returns, it has reached the anchor at [unextended_sp + frame_data_offset
    + offset of jfa] (in bytes, with the blob's frame data offset), the
    sender is constructed from that anchor's last Java sp, fp and pc, the
    map comes back cleared and no other anchor has changed; with assertions
    on, the region is an optimized entry blob, the frame an optimized entry
    frame and the anchor's last sp is non-null and above the frame's sp. *)
Theorem sender_for_optimized_entry_frame_sender
    (mem : memory) (this : frame) (map : option RegisterMap) (heap : anchors) :
  (debug_build = true ->
   is_optimized_entry_blob (blob_at (cb this)) = false ->
   returns (sender_for_optimized_entry_frame mem this map heap) = false) /\
  (forall fr map' heap',
      sender_for_optimized_entry_frame mem this map heap = Ok (fr, map', heap') ->
      let frame_data_offset :=
        match kind (blob_at (cb this)) with
        | OptimizedEntryBlob frame_data_offset => frame_data_offset
        | _ => miscast_frame_data_offset (blob_at (cb this))
        end in
      exists m jfa jfa',
        map = Some m /\ map' = RegisterMap_clear m /\
        heap !! wrap64 (wrap64 (unextended_sp this + frame_data_offset)
                        + FrameData_jfa_offset) = Some jfa /\
        heap' !! wrap64 (wrap64 (unextended_sp this + frame_data_offset)
                         + FrameData_jfa_offset) = Some jfa' /\
        last_Java_sp jfa' = last_Java_sp jfa /\ last_Java_fp jfa' = last_Java_fp jfa /\
        fr = frame_ctor3 mem (last_Java_sp jfa') (last_Java_fp jfa') (last_Java_pc jfa') /\
        (forall p, p <> wrap64 (wrap64 (unextended_sp this + frame_data_offset)
                                + FrameData_jfa_offset) ->
                   heap' !! p = heap !! p) /\
        (debug_build = true ->
         is_optimized_entry_blob (blob_at (cb this)) = true /\
         is_optimized_entry_frame this = true /\
         sp this < last_Java_sp jfa /\ last_Java_sp jfa <> NULL /\
         include_argument_oops map' = true /\ last_Java_pc jfa' <> NULL)).
Proof.
  split.
  { intros Hd Hk. unfold sender_for_optimized_entry_frame, jfa_for_frame.
    destruct (assert _ "map must be set") as [[]|]; cbn; [|reflexivity].
    rewrite Hk, (assert_debug_false _ Hd). reflexivity. }
  intros fr map' heap' H fdo.
  unfold sender_for_optimized_entry_frame in H. cbn in H. assert_passed H.
  unfold jfa_for_frame in H. cbn in H. fold fdo in H. assert_passed H.
  unfold frame_data_for_frame in H. cbn in H. assert_passed H.
  unfold anchor_at in H at 1.
  match type of H with
  | context [@lookup ?K ?A ?M ?I ?k heap] =>
      destruct (@lookup K A M I k heap) as [jfa|] eqn:Hl; cbn in H; [|discriminate H]
  end.
  assert (Hfirst : debug_build = true ->
                   is_optimized_entry_blob (blob_at (cb this)) = true /\
                   is_optimized_entry_frame this = true /\
                   sp this < last_Java_sp jfa /\ last_Java_sp jfa <> NULL).
  { intros Hd. rewrite Hd in H.
    unfold optimized_entry_frame_is_first, jfa_for_frame, frame_data_for_frame in H.
    cbn in H. fold fdo in H. rewrite Hassert0, Hassert1 in H. cbn in H.
    assert_passed H. rewrite (anchor_at_lookup _ _ _ Hl) in H. cbn in H.
    do 2 assert_passed H.
    apply assert_ok_inv in Hassert0 as [|Hb]; [congruence|].
    apply assert_ok_inv in Hassert1 as [|Ho]; [congruence|].
    apply assert_ok_inv in Hassert3 as [|Hn]; [congruence|].
    apply assert_ok_inv in Hassert4 as [|Hlt]; [congruence|].
    apply negb_true_iff, Z.eqb_neq in Hn. apply Z.ltb_lt in Hlt. auto. }
  assert (Htail : sender_from_anchor mem map
                    (wrap64 (wrap64 (unextended_sp this + fdo) + FrameData_jfa_offset))
                    heap = Ok (fr, map', heap')).
  { destruct debug_build.
    - unfold optimized_entry_frame_is_first, jfa_for_frame, frame_data_for_frame in H.
      cbn in H. fold fdo in H. rewrite Hassert0, Hassert1 in H. cbn in H.
      assert_passed H. rewrite (anchor_at_lookup _ _ _ Hl) in H. cbn in H.
      do 2 assert_passed H. exact H.
    - cbn in H. do 2 assert_passed H. exact H. }
  destruct (sender_from_anchor_sender _ _ _ _ _ _ _ _ Hl Htail)
    as (m & jfa' & -> & -> & Hl' & Hsp & Hfp & -> & Hother & Hdbg).
  exists m, jfa, jfa'. do 8 (split; [assumption || reflexivity|]).
  intros Hd. destruct (Hdbg Hd) as [Hi Hp]. destruct (Hfirst Hd) as (? & ? & ? & ?).
  auto 10.
Qed.

End AnchorFacts.

(** Making the anchor of the sample entry frame walkable captures 0x100040;
    doing it again changes nothing. *)
Lemma make_walkable_spec_witness :
  exists jfa',
    make_walkable (R := Sample.runtime true) Sample.thread Sample.entry_stack
      (mkAnchor 0x3200 0x3240 NULL) = Ok jfa' /\
    last_Java_pc jfa' = 0x100040 /\
    make_walkable (R := Sample.runtime true) Sample.thread Sample.entry_stack jfa'
    = Ok jfa'.
Proof.
  destruct (make_walkable (R := Sample.runtime true) Sample.thread Sample.entry_stack
              (mkAnchor 0x3200 0x3240 NULL)) as [jfa'|e] eqn:E.
  - exists jfa'. split; [reflexivity|].
    destruct (make_walkable_spec (R := Sample.runtime true) Sample.thread
                Sample.entry_stack (mkAnchor 0x3200 0x3240 NULL)) as [H _].
    destruct (H jfa' E) as (Hcap & _ & Hagain).
    split; [|exact Hagain].
    destruct Hcap as [-> | (_ & _ & ->)]; [discriminate E | reflexivity].
  - discriminate E.
Defined.

(** The sender of the sample entry frame is built from its anchor, whose
    last sp 0x3200 lies above the frame's sp 0x3000. *)
Lemma sender_for_entry_frame_sender_witness :
  exists fr map' heap',
    sender_for_entry_frame (R := Sample.runtime true) Sample.entry_stack
      Sample.entry_frame (Some Sample.empty_map) Sample.entry_anchors
    = Ok (fr, map', heap') /\
    fr = frame_ctor3 (Runtime := Sample.runtime true) Sample.entry_stack
           0x3200 0x3240 0x100040 /\
    include_argument_oops map' = true.
Proof.
  destruct (sender_for_entry_frame (R := Sample.runtime true) Sample.entry_stack
              Sample.entry_frame (Some Sample.empty_map) Sample.entry_anchors)
    as [[[fr map'] heap']|e] eqn:E.
  - exists fr, map', heap'. split; [reflexivity|].
    destruct (sender_for_entry_frame_sender (R := Sample.runtime true) _ _ _ _ _ _ _ E)
      as (m & jfa & jfa' & Hm & Hmap & Hl & Hl' & Hsp & Hfp & Hfr & _ & Hd).
    destruct (Hd eq_refl) as (_ & _ & Hi & _).
    split; [|exact Hi].
    rewrite Hfr.
    assert (Hj : jfa' = mkAnchor 0x3200 0x3240 0x100040).
    { destruct (sender_from_anchor_ok (R := Sample.runtime true)
                  Sample.entry_stack (Some Sample.empty_map) 0x3108
                  Sample.entry_anchors (mkAnchor 0x3200 0x3240 NULL) fr map' heap'
                  eq_refl) as (_ & Hn & _).
      - unfold sender_for_entry_frame in E. exact E.
      - rewrite (Hn eq_refl) in Hl'. cbn in Hl'.
        rewrite lookup_insert_eq in Hl'. now injection Hl' as <-. }
    now rewrite Hj.
  - discriminate E.
Defined.

(** An upcall frame: its anchor lies 32 bytes above the unextended sp; with
    assertions on, a frame of the nmethod stops the VM. *)
Lemma sender_for_optimized_entry_frame_sender_witness :
  returns (sender_for_optimized_entry_frame
             (R := SampleWalk.with_blobs (Sample.runtime true) SampleWalk.upcall_blobs)
             Sample.entry_stack Sample.compiled_frame (Some Sample.empty_map)
             SampleWalk.upcall_anchors) = false /\
  returns (sender_for_optimized_entry_frame
             (R := SampleWalk.with_blobs (Sample.runtime true) SampleWalk.upcall_blobs)
             Sample.entry_stack SampleWalk.upcall_frame (Some Sample.empty_map)
             SampleWalk.upcall_anchors) = true.
Proof.
  split; [|reflexivity].
  apply (proj1 (sender_for_optimized_entry_frame_sender
                  (R := SampleWalk.with_blobs (Sample.runtime true)
                          SampleWalk.upcall_blobs)
                  Sample.entry_stack Sample.compiled_frame (Some Sample.empty_map)
                  SampleWalk.upcall_anchors)); reflexivity.
Defined.

(** * Properties of the slot accessors and of the interpreted-frame resolver *)

Section AccessorFacts.

Context `{L : FrameLayout} `{IL : InterpreterLayout} `{R : Runtime} `{W : Walker}.

Ltac assert_passed H :=
  match type of H with
  | context [assert ?c ?m] =>
      let E := fresh "Hassert" in
      destruct (assert c m) as [[]|] eqn:E; cbn in H; [|discriminate H]
  end.

(** Two slots of a frame less than 2^60 words apart have different
    addresses. *)
Lemma addr_at_inj (f : frame) (i j : Z) :
  - 2 ^ 60 < i - j < 2 ^ 60 -> addr_at f i = addr_at f j -> i = j.
Proof.
  unfold addr_at, ptr_add, wrap64, wordSize. intros Hb He.
  assert (Hm : (fp f + i * 8 - (fp f + j * 8)) mod 2 ^ 64 = 0).
  { rewrite Zminus_mod, He, Z.sub_diag. reflexivity. }
  apply Z.mod_divide in Hm; [|lia]. destruct Hm as [k Hk]. lia.
Qed.

Lemma at_ptr_at_put_eq (mem : memory) (f : frame) (i : Z) (v : Z) :
  at_ (ptr_at_put mem f i v) f i = v.
Proof. unfold at_, ptr_at_put, addr_at. apply load_store_eq. Qed.

Lemma at_ptr_at_put_ne (mem : memory) (f : frame) (i j : Z) (v : Z) :
  - 2 ^ 60 < i - j < 2 ^ 60 -> i <> j ->
  at_ (ptr_at_put mem f i v) f j = at_ mem f j.
Proof.
  intros Hb Hne. unfold at_, ptr_at_put. apply load_store_ne.
  intros He. apply Hne. now apply (addr_at_inj f).
Qed.

(** X12. After [set_interpreter_frame_sender_sp] has returned,
    [interpreter_frame_sender_sp] returns the value that was set, and every
    other slot of the frame (less than 2^60 words away) reads as before. *)
Theorem interpreter_frame_sender_sp_round_trip
    (mem mem' : memory) (this : frame) (v : address) :
  set_interpreter_frame_sender_sp mem this v = Ok mem' ->
  interpreter_frame_sender_sp mem' this = Ok v /\
  forall index,
    - 2 ^ 60 < interpreter_frame_sender_sp_offset - index < 2 ^ 60 ->
    index <> interpreter_frame_sender_sp_offset ->
    at_ mem' this index = at_ mem this index.
Proof.
  unfold set_interpreter_frame_sender_sp, interpreter_frame_sender_sp.
  intros H. cbn in H. assert_passed H. injection H as <-. cbn. split.
  - now rewrite at_ptr_at_put_eq.
  - intros index Hb Hne. apply at_ptr_at_put_ne; auto.
Qed.

(** X13. [interpreter_frame_monitor_end] reads back what
    [interpreter_frame_set_monitor_end] stored when the value lies in the
    frame, at or above sp and strictly below fp; with assertions on it stops
    the VM for any other stored value, so a returned monitor end always lies
    in the frame.  [interpreter_frame_set_last_sp] does not disturb it when
    the last-sp slot is another slot. *)
Theorem interpreter_frame_monitor_end_round_trip
    (mem : memory) (this : frame) (v : address) :
  (sp this <= v < fp this ->
   interpreter_frame_monitor_end (interpreter_frame_set_monitor_end mem this v) this
   = Ok v) /\
  (debug_build = true -> ~ sp this <= v < fp this ->
   returns (interpreter_frame_monitor_end
              (interpreter_frame_set_monitor_end mem this v) this) = false) /\
  (forall r, debug_build = true -> interpreter_frame_monitor_end mem this = Ok r ->
             sp this <= r < fp this) /\
  (- 2 ^ 60 < interpreter_frame_last_sp_offset
              - interpreter_frame_monitor_block_top_offset < 2 ^ 60 ->
   interpreter_frame_last_sp_offset <> interpreter_frame_monitor_block_top_offset ->
   interpreter_frame_monitor_end (interpreter_frame_set_last_sp mem this v) this
   = interpreter_frame_monitor_end mem this).
Proof.
  unfold interpreter_frame_monitor_end, interpreter_frame_set_monitor_end,
    interpreter_frame_set_last_sp.
  repeat split.
  - intros [Hlo Hhi]. unfold at_, addr_at. rewrite load_store_eq.
    apply Z.leb_le in Hlo. apply Z.ltb_lt in Hhi.
    now rewrite Hlo, Hhi, !assert_true.
  - intros Hd Hout. unfold at_, addr_at. rewrite load_store_eq.
    destruct (Z.leb_spec (sp this) v).
    + destruct (Z.ltb_spec v (fp this)); [lia|].
      rewrite assert_true, assert_debug_false by assumption. reflexivity.
    + now rewrite assert_debug_false.
  - cbn in H0. do 2 assert_passed H0. injection H0 as <-.
    apply assert_ok_inv in Hassert as [|Hlo]; [congruence|]. now apply Z.leb_le.
  - cbn in H0. do 2 assert_passed H0. injection H0 as <-.
    apply assert_ok_inv in Hassert0 as [|Hhi]; [congruence|]. now apply Z.ltb_lt.
  - intros Hb Hne.
    change (store mem (addr_at this interpreter_frame_last_sp_offset) v)
      with (ptr_at_put mem this interpreter_frame_last_sp_offset v).
    now rewrite at_ptr_at_put_ne.
Qed.

(** X14. For an interpreted frame whose fp is safe, the sender that
    [sender_for_interpreter_frame] returns is, unless the return address is
    the continuation return barrier, the frame constructed from the
    provisional sender that [safe_for_sender] validates; the register map
    records the link slot exactly when it is in update mode (in
    COMPILER2/JVMCI builds) and is otherwise unchanged. *)
Theorem sender_for_interpreter_frame_provisional
    (thread : JavaThread) (mem : memory) (this : frame) (map : RegisterMap) :
  is_interpreted_frame this = true ->
  is_return_barrier_entry (at_ mem this return_addr_offset) = false ->
  exists s,
    provisional_sender thread mem this true = Some s /\
    fix_return_barrier thread mem this s = s /\
    sender_for_interpreter_frame mem this map =
      Ok (frame_ctor mem (sender_sp s) (sender_unextended_sp s) (saved_fp s)
            (sender_pc s),
          if COMPILER2_OR_JVMCI && update_map map
          then update_map_with_saved_link map (addr_at this link_offset)
          else map).
Proof.
  intros Hi Hb. eexists. split; [|split].
  - unfold provisional_sender. rewrite Hi. reflexivity.
  - unfold fix_return_barrier. cbn. now rewrite Hb.
  - unfold sender_for_interpreter_frame, interpreter_frame_sender_sp,
      frame_sender_pc, frame_sender_sp, link.
    rewrite Hi, assert_true. cbn. now rewrite Hb.
Qed.

(** X15. With assertions on, [adjust_unextended_sp] passes exactly when the
    frame's pc is not a deoptimization entry of its compiled method or the
    original pc recovered for the frame lies in that method's instructions
    (end included); frames of other regions always pass. *)
Theorem adjust_unextended_sp_original_pc (mem : memory) (this : frame) :
  debug_build = true ->
  (adjust_unextended_sp mem this = Ok tt <->
   forall cm,
     cb this <> NULL ->
     as_compiled_method_or_null (blob_at (cb this)) = Some cm ->
     is_deopt_entry cm (pc this) || is_deopt_mh_entry cm (pc this) = true ->
     insts_contains_inclusive cm (get_deopt_original_pc mem this) = true).
Proof.
  intros Hd. unfold adjust_unextended_sp, get_deopt_original_pc,
    verify_deopt_original_pc, assert. rewrite Hd.
  destruct (Z.eqb_spec (cb this) NULL) as [Hcb | Hcb]; cbn.
  { split; [intros _ cm Hn; contradiction | reflexivity]. }
  destruct (as_compiled_method_or_null (blob_at (cb this))) as [cm|].
  - destruct (is_deopt_entry cm (pc this) || is_deopt_mh_entry cm (pc this)) eqn:Hde.
    + split.
      * intros H cm' _ Hcm _. injection Hcm as <-.
        destruct (insts_contains_inclusive cm _); [reflexivity | discriminate H].
      * intros H. specialize (H cm Hcb eq_refl Hde). now rewrite H.
    + split; [|reflexivity]. intros _ cm' _ Hcm Hde'. injection Hcm as <-.
      congruence.
  - split; [|reflexivity]. intros _ cm _ Hcm. discriminate Hcm.
Qed.

(** X17. If [safe_for_sender] accepts an interpreted frame whose return address
    lies in interpreter code (and is not the continuation return barrier),
    then [sender_for_interpreter_frame] returns a sender that passes
    [is_interpreted_frame_valid], and whose fp lies strictly between its sp
    and the stack top. *)
Theorem safe_for_sender_sender_valid
    (thread : JavaThread) (mem : memory) (this : frame) (map : RegisterMap) :
  (cb this =? NULL) = false ->
  is_interpreted_frame this = true ->
  is_entry_frame this = false ->
  is_optimized_entry_frame this = false ->
  is_return_barrier_entry (at_ mem this return_addr_offset) = false ->
  Interpreter_contains (at_ mem this return_addr_offset) = true ->
  safe_for_sender thread mem this = Ok true ->
  exists sender_unextended_sp map',
    sender_for_interpreter_frame mem this map =
      Ok (frame_ctor mem (addr_at this sender_sp_offset) sender_unextended_sp
            (at_ mem this link_offset) (at_ mem this return_addr_offset),
          map') /\
    addr_at this sender_sp_offset < at_ mem this link_offset < stack_base thread /\
    is_interpreted_frame_valid thread mem
      (frame_ctor mem (addr_at this sender_sp_offset) sender_unextended_sp
         (at_ mem this link_offset) (at_ mem this return_addr_offset)) = Ok true.
Proof.
  intros Hcb Hi He Ho Hb Hin Hsafe.
  pose (s := {| sender_sp := addr_at this sender_sp_offset;
                sender_unextended_sp := at_ mem this interpreter_frame_sender_sp_offset;
                sender_pc := at_ mem this return_addr_offset;
                saved_fp := at_ mem this link_offset |}).
  assert (Hp : provisional_sender thread mem this true = Some s).
  { unfold provisional_sender. now rewrite Hi. }
  assert (Hfix : fix_return_barrier thread mem this s = s).
  { unfold fix_return_barrier. cbn. now rewrite Hb. }
  assert (Hs : sender_for_interpreter_frame mem this map =
               Ok (frame_ctor mem (sender_sp s) (sender_unextended_sp s) (saved_fp s)
                     (sender_pc s),
                   if COMPILER2_OR_JVMCI && update_map map
                   then update_map_with_saved_link map (addr_at this link_offset)
                   else map)).
  { unfold sender_for_interpreter_frame, interpreter_frame_sender_sp,
      frame_sender_pc, frame_sender_sp, link.
    rewrite Hi, assert_true. cbn. now rewrite Hb. }
  assert (Hfp : fp_is_safe thread this = true).
  { destruct (fp_is_safe thread this) eqn:Hf; [reflexivity|].
    assert (Hnone : provisional_sender thread mem this false = None).
    { unfold provisional_sender. now rewrite Hi. }
    unfold safe_for_sender, safe_for_sender_in_code_cache in Hsafe.
    rewrite Hcb, He, Ho, Hf, Hnone in Hsafe. cbn in Hsafe.
    repeat match type of Hsafe with
           | (if ?c then _ else _) = _ => destruct c
           end; discriminate Hsafe. }
  rewrite <- Hfp in Hp.
  destruct (safe_for_sender_validates_sender _ _ _ _ _ Hcb He Ho Hp Hsafe) as [H | H];
    [discriminate H|].
  rewrite Hfix in H. symmetry in H. subst s. cbn in Hs, H.
  unfold validate_sender in H. cbn in H. rewrite Hin in H.
  destruct (is_in_stack_range_excl thread _ _) eqn:Hx; [|discriminate H].
  cbn in H. apply excl_range_spec in Hx.
  eexists _, _. split; [exact Hs|]. split; [exact Hx | exact H].
Qed.

End AccessorFacts.

(** * Further properties of the result extractor *)

Section ResultFacts.

Context `{L : FrameLayout} `{R : Runtime}.





End ResultFacts.


(** Setting the sender sp of the sample interpreted frame: it reads back,
    and the return address above fp is untouched. *)
Lemma interpreter_frame_sender_sp_round_trip_witness :
  exists mem',
    set_interpreter_frame_sender_sp (L := Sample.x86_64_layout)
      (R := Sample.runtime true) Sample.interpreted_callee_stack
      Sample.interpreted_frame 0x3060 = Ok mem' /\
    interpreter_frame_sender_sp (L := Sample.x86_64_layout)
      (R := Sample.runtime true) mem' Sample.interpreted_frame = Ok 0x3060 /\
    at_ mem' Sample.interpreted_frame 1 = 0x100040.
Proof.
  destruct (set_interpreter_frame_sender_sp (L := Sample.x86_64_layout)
              (R := Sample.runtime true) Sample.interpreted_callee_stack
              Sample.interpreted_frame 0x3060) as [mem'|e] eqn:E.
  - exists mem'. split; [reflexivity|].
    destruct (interpreter_frame_sender_sp_round_trip (L := Sample.x86_64_layout)
                (R := Sample.runtime true) _ _ _ _ E) as [Hget Hother].
    split; [exact Hget|]. rewrite Hother; [reflexivity | | discriminate].
    split; reflexivity.
  - discriminate E.
Defined.

(** A monitor end stored inside the sample interpreted frame reads back. *)
Lemma interpreter_frame_monitor_end_round_trip_witness :
  interpreter_frame_monitor_end
    (IL := SampleWalk.x86_64_interpreter_layout) (R := Sample.runtime true)
    (interpreter_frame_set_monitor_end
       (IL := SampleWalk.x86_64_interpreter_layout)
       SampleWalk.monitor_stack Sample.interpreted_frame 0x3010)
    Sample.interpreted_frame = Ok 0x3010.
Proof.
  apply (proj1 (interpreter_frame_monitor_end_round_trip
                  (IL := SampleWalk.x86_64_interpreter_layout)
                  (R := Sample.runtime true)
                  SampleWalk.monitor_stack Sample.interpreted_frame 0x3010)).
  split; [discriminate | reflexivity].
Defined.

(** The sender of the sample interpreted frame: sp 0x3050 (two words above
    fp), unextended sp 0x3050, fp 0x3100, pc 0x100040; the map, in update
    mode, records the link slot 0x3040. *)
Lemma sender_for_interpreter_frame_provisional_witness :
  exists s,
    provisional_sender (L := Sample.x86_64_layout) (R := Sample.runtime true)
      Sample.thread Sample.interpreted_callee_stack Sample.interpreted_frame true
    = Some s /\
    fix_return_barrier (R := Sample.runtime true) Sample.thread
      Sample.interpreted_callee_stack Sample.interpreted_frame s = s /\
    sender_for_interpreter_frame (L := Sample.x86_64_layout)
      (R := Sample.runtime true) (W := SampleWalk.walker)
      Sample.interpreted_callee_stack Sample.interpreted_frame Sample.empty_map
    = Ok (frame_ctor (Runtime := Sample.runtime true) Sample.interpreted_callee_stack
            (sender_sp s) (sender_unextended_sp s) (saved_fp s) (sender_pc s),
          mkRegisterMap false true false {[ 5 := 0x3040 ]}).
Proof.
  exact (sender_for_interpreter_frame_provisional (L := Sample.x86_64_layout)
           (R := Sample.runtime true) (W := SampleWalk.walker) Sample.thread
           Sample.interpreted_callee_stack Sample.interpreted_frame Sample.empty_map
           eq_refl eq_refl).
Defined.

(** A frame at the deopt handler whose original pc 0x100020 lies in the
    nmethod passes the check. *)
Lemma adjust_unextended_sp_original_pc_witness :
  adjust_unextended_sp (R := Sample.runtime true) (W := SampleWalk.walker)
    Sample.patch_stack SampleWalk.deopt_frame = Ok tt.
Proof.
  apply (proj2 (adjust_unextended_sp_original_pc (R := Sample.runtime true)
                  (W := SampleWalk.walker) Sample.patch_stack
                  SampleWalk.deopt_frame eq_refl)).
  intros cm _ Hcm _. injection Hcm as <-. reflexivity.
Defined.

(** The interpreted callee of the sample VM is accepted, and the sender the
    resolver returns for it is a valid interpreted frame. *)
Lemma safe_for_sender_sender_valid_witness :
  exists sender_unextended_sp map',
    sender_for_interpreter_frame (L := Sample.x86_64_layout)
      (R := Sample.runtime true) (W := SampleWalk.walker)
      SampleWalk.interpreted_chain_stack SampleWalk.interpreted_callee
      Sample.empty_map
    = Ok (frame_ctor (Runtime := Sample.runtime true)
            SampleWalk.interpreted_chain_stack 0x3020 sender_unextended_sp
            0x3080 0x200010, map') /\
    0x3020 < 0x3080 < 0x8000 /\
    is_interpreted_frame_valid (L := Sample.x86_64_layout) (R := Sample.runtime true)
      Sample.thread SampleWalk.interpreted_chain_stack
      (frame_ctor (Runtime := Sample.runtime true)
         SampleWalk.interpreted_chain_stack 0x3020 sender_unextended_sp
         0x3080 0x200010) = Ok true.
Proof.
  exact (safe_for_sender_sender_valid (L := Sample.x86_64_layout)
           (R := Sample.runtime true) (W := SampleWalk.walker) Sample.thread
           SampleWalk.interpreted_chain_stack SampleWalk.interpreted_callee
           Sample.empty_map eq_refl eq_refl eq_refl eq_refl eq_refl eq_refl eq_refl).
Defined.

(** * The result extractor with every read *)

Section TracedResult.

Context `{L : FrameLayout} `{IL : InterpreterLayout} `{R : Runtime}.

Lemma interpreted_frame_asserted (this : frame) :
  (debug_build = true -> is_interpreted_frame this = true) ->
  assert (is_interpreted_frame this) "interpreted frame expected" = Ok tt.
Proof.
  intros Hpre. unfold assert. destruct debug_build; [rewrite Hpre|]; reflexivity.
Qed.

(** The call up to its switch: the method slot is read, then the
    top-of-stack address is found; the switch runs on what they yield. *)
Lemma interpreter_frame_result_switch
    (mem : memory) (this : frame) (out : outputs)
    (m : address) (l_tos : list address) (tos_addr : address) :
  (debug_build = true -> is_interpreted_frame this = true) ->
  mem !! addr_at this interpreter_frame_method_offset = Some m ->
  Traced.tos_address this (method_at m) mem = (l_tos, Ok tos_addr) ->
  Traced.interpreter_frame_result this out mem =
    let '(l, r) :=
      match result_type (method_at m) with
      | T_OBJECT | T_ARRAY =>
          (obj ← (if is_native (method_at m) then
                    Traced.read (addr_at this interpreter_frame_oop_temp_offset)
                  else if tos_addr =? NULL then mret NULL
                  else Traced.read tos_addr);
           _ ← Traced.check (is_in_heap_or_null obj) "sanity check";
           mret (result_type (method_at m), mkOutputs obj (value_result out))) mem
      | T_BOOLEAN | T_BYTE =>
          Traced.read_value 1 tos_addr (result_type (method_at m)) out mem
      | T_CHAR | T_SHORT =>
          Traced.read_value 2 tos_addr (result_type (method_at m)) out mem
      | T_INT | T_FLOAT =>
          Traced.read_value 4 tos_addr (result_type (method_at m)) out mem
      | T_LONG | T_DOUBLE =>
          Traced.read_value 8 tos_addr (result_type (method_at m)) out mem
      | T_VOID => ([], Ok (result_type (method_at m), out))
      | _ => ([], Fatal ShouldNotReachHere)
      end in
    (addr_at this interpreter_frame_method_offset :: l_tos ++ l, r).
Proof.
  intros Hpre Hm Htos. apply interpreted_frame_asserted in Hpre.
  unfold Traced.interpreter_frame_result.
  unfold mbind at 1, Traced.Rd_bind at 1, Traced.check at 1. rewrite Hpre.
  unfold mbind at 1, Traced.Rd_bind at 1, Traced.interpreter_frame_method,
    Traced.read at 1.
  unfold address in *. rewrite Hm. cbn [app].
  unfold mbind at 1, Traced.Rd_bind at 1. rewrite Htos.
  destruct (result_type (method_at m)); cbn beta iota;
    try reflexivity;
    match goal with
    | |- context [Traced.read_value ?w ?a ?t ?o mem] =>
        destruct (Traced.read_value w a t o mem) as [l r]
    | |- context [mbind ?k ?c mem] => destruct (mbind k c mem) as [l r]
    end; reflexivity.
Qed.

Ltac case_lookup mem :=
  match goal with
  | |- context [@lookup ?K ?A ?M ?I ?k mem] =>
      destruct (@lookup K A M I k mem) eqn:?
  end.

Lemma read_value_mapped
    (mem : memory) (w : Z) (a : address) (t : BasicType) (out : outputs) (x : Z) :
  mem !! a = Some x ->
  Traced.read_value w a t out mem =
    ([a], Ok (t, mkOutputs (oop_result out) (jvalue_put w (value_result out) x))).
Proof.
  intros Hx. unfold Traced.read_value, mbind, Traced.Rd_bind, Traced.read.
  unfold address in *. now rewrite Hx.
Qed.


Lemma read_value_ok_inv
    (mem : memory) (w : Z) (a : address) (t ty : BasicType) (out out' : outputs)
    (l : list address) :
  Traced.read_value w a t out mem = (l, Ok (ty, out')) ->
  l = [a] /\ ty = t /\ oop_result out' = oop_result out /\
  exists x, mem !! a = Some x /\ value_result out' = jvalue_put w (value_result out) x.
Proof.
  unfold Traced.read_value, mbind, Traced.Rd_bind, Traced.read.
  unfold address in *. destruct (mem !! a) as [x|]; cbn; intros H; inversion H.
  eauto 6.
Qed.

Lemma read_object_ok_inv
    (mem : memory) (this : frame) (method : Method) (tos_addr : address)
    (l : list address) (obj : address) :
  (if is_native method
   then Traced.read (addr_at this interpreter_frame_oop_temp_offset)
   else if tos_addr =? NULL then mret NULL else Traced.read tos_addr) mem
    = (l, Ok obj) ->
  if is_native method then
    l = [addr_at this interpreter_frame_oop_temp_offset] /\
    mem !! addr_at this interpreter_frame_oop_temp_offset = Some obj
  else if tos_addr =? NULL then l = [] /\ obj = NULL
  else l = [tos_addr] /\ mem !! tos_addr = Some obj.
Proof.
  unfold Traced.read, address in *.
  destruct (is_native method).
  - case_lookup mem; intros H; now inversion H.
  - destruct (tos_addr =? NULL).
    + intros H. now inversion H.
    + case_lookup mem; intros H; now inversion H.
Qed.

(** Where the top of stack is: for a native method the sp (two stack
    elements higher for a float or double result), with no read; otherwise
    the saved last sp, read from its slot, or the sp when it is null. *)
Lemma tos_address_spec
    (mem : memory) (this : frame) (method : Method)
    (l_tos : list address) (tos_addr : address) :
  Traced.tos_address this method mem = (l_tos, Ok tos_addr) ->
  (is_native method = true ->
   l_tos = [] /\
   tos_addr = match result_type method with
              | T_FLOAT | T_DOUBLE => ptr_add (sp this) (2 * stackElementWords)
              | _ => sp this
              end) /\
  (is_native method = false ->
   exists last_sp rest,
     mem !! addr_at this interpreter_frame_last_sp_offset = Some last_sp /\
     l_tos = addr_at this interpreter_frame_last_sp_offset :: rest /\
     tos_addr = (if last_sp =? NULL then sp this else last_sp) /\
     (last_sp = NULL \/ debug_build = false -> rest = [])).
Proof.
  unfold Traced.tos_address. intros H. split; intros Hn; rewrite Hn in H.
  - cbn in H. now inversion H.
  - unfold Traced.interpreter_frame_tos_address, mbind at 1, Traced.Rd_bind at 1,
      Traced.read at 1 in H.
    match type of H with
    | context [@lookup ?K ?A ?M ?I ?k mem] =>
        change (@lookup Z Z memory _ (addr_at this interpreter_frame_last_sp_offset) mem)
          with (@lookup K A M I k mem);
        destruct (@lookup K A M I k mem) as [last_sp|]; [|discriminate H]
    end.
    destruct (Z.eqb_spec last_sp NULL) as [Hnull | Hnn].
    + cbn in H. inversion H. exists last_sp, []. repeat split; auto.
      subst last_sp. reflexivity.
    + match type of H with
      | (let '(l', r) := ?run in _) = _ => destruct run as [rest [a|e]] eqn:E
      end; [|discriminate H].
      inversion H; subst. exists last_sp, rest.
      unfold mbind, Traced.Rd_bind in E.
      destruct debug_build eqn:Hd.
      * match type of E with
        | context [Traced.interpreter_frame_monitor_end this mem] =>
            destruct (Traced.interpreter_frame_monitor_end this mem) as [l1 [me|]]
        end; [|discriminate E].
        destruct (Traced.check (last_sp <=? me) "bad tos" mem) as [l2 [[]|]];
          cbn in E; inversion E; subst.
        rewrite (proj2 (Z.eqb_neq _ _) Hnn).
        split; [reflexivity|]. split; [reflexivity|]. split; [reflexivity|].
        intros [Hc | Hc]; [contradiction | discriminate Hc].
      * cbn in E. inversion E; subst.
        rewrite (proj2 (Z.eqb_neq _ _) Hnn).
        split; [reflexivity|]. split; [reflexivity|]. split; [reflexivity|].
        reflexivity.
Qed.


Lemma load_mapped (mem : memory) (a : address) (x : Z) :
  mem !! a = Some x -> load mem a = x.
Proof. unfold load, address in *. now intros ->. Qed.

(** The dispatch [interpreter_frame_result] is the last part of the whole
    call: when the accessors of the runtime yield what the whole call reads
    from the method slot and finds as top-of-stack address, a whole call
    that returns returns what the dispatch returns, and its loads are those
    that find the method and the top of stack followed by those of the
    dispatch. *)
Lemma traced_result_dispatch
    (mem : memory) (this : frame) (out : outputs)
    (m : address) (l_tos : list address) (tos_addr : address)
    (l : list address) (r : BasicType * outputs) :
  (debug_build = true -> is_interpreted_frame this = true) ->
  mem !! addr_at this interpreter_frame_method_offset = Some m ->
  interpreter_frame_method mem this = m ->
  Traced.tos_address this (method_at m) mem = (l_tos, Ok tos_addr) ->
  (is_native (method_at m) = false ->
   interpreter_frame_tos_address mem this = tos_addr) ->
  Traced.interpreter_frame_result this out mem = (l, Ok r) ->
  exists l',
    interpreter_frame_result mem this out = (l', Ok r) /\
    l = addr_at this interpreter_frame_method_offset :: l_tos ++ l'.
Proof.
  intros Hpre Hm Hacc Htos Htacc H.
  rewrite (interpreter_frame_result_switch mem this out m l_tos tos_addr
             Hpre Hm Htos) in H.
  destruct (tos_address_spec _ _ _ _ _ Htos) as [Hnat _].
  unfold interpreter_frame_result.
  rewrite (interpreted_frame_expected this Hpre), Hacc.
  assert (Ha : (if is_native (method_at m)
                then match result_type (method_at m) with
                     | T_FLOAT | T_DOUBLE => ptr_add (sp this) (2 * stackElementWords)
                     | _ => sp this
                     end
                else interpreter_frame_tos_address mem this) = tos_addr).
  { destruct (is_native (method_at m)).
    - symmetry. now apply Hnat.
    - now apply Htacc. }
  rewrite Ha. clear Ha.
  destruct (result_type (method_at m)) eqn:Et;
    try (cbn in H; discriminate H);
    try (match type of H with
         | context [Traced.read_value ?w ?a ?t ?o mem] =>
             destruct (Traced.read_value w a t o mem) as [l1 [[ty1 out1]|e]] eqn:E;
             [|discriminate H]
         end;
         pose proof E as E';
         apply read_value_ok_inv in E' as (_ & -> & Ho & x & Hx & Hv);
         rewrite (read_value_mapped _ _ _ _ _ _ Hx) in E;
         inversion E; subst; inversion H; subst;
         eexists; split; [|reflexivity];
         unfold put_value; now rewrite (load_mapped _ _ _ Hx)).
  - unfold mbind, Traced.Rd_bind, Traced.check in H.
    match type of H with
    | context [(if is_native ?me then ?a else ?b) mem] =>
        destruct ((if is_native me then a else b) mem) as [l1 [obj|]] eqn:E;
        [|discriminate H]
    end.
    pose proof (read_object_ok_inv _ _ _ _ _ _ E) as Hobj.
    destruct (assert (is_in_heap_or_null obj) "sanity check") eqn:Hs;
      cbn in H; [|discriminate H]. injection H as Hl Hr. subst l r.
    unfold at_. fold (addr_at this interpreter_frame_oop_temp_offset).
    destruct (is_native (method_at m)).
    + destruct Hobj as [-> Hobj]. rewrite (load_mapped _ _ _ Hobj), Hs. cbn.
      eexists; split; [reflexivity|]. now rewrite ?app_nil_r.
    + destruct (tos_addr =? NULL).
      * destruct Hobj as [-> ->]. rewrite Hs. cbn.
        eexists; split; [reflexivity|]. now rewrite ?app_nil_r.
      * destruct Hobj as [-> Hobj]. rewrite (load_mapped _ _ _ Hobj), Hs. cbn.
        eexists; split; [reflexivity|]. now rewrite ?app_nil_r.
  - unfold mbind, Traced.Rd_bind, Traced.check in H.
    match type of H with
    | context [(if is_native ?me then ?a else ?b) mem] =>
        destruct ((if is_native me then a else b) mem) as [l1 [obj|]] eqn:E;
        [|discriminate H]
    end.
    pose proof (read_object_ok_inv _ _ _ _ _ _ E) as Hobj.
    destruct (assert (is_in_heap_or_null obj) "sanity check") eqn:Hs;
      cbn in H; [|discriminate H]. injection H as Hl Hr. subst l r.
    unfold at_. fold (addr_at this interpreter_frame_oop_temp_offset).
    destruct (is_native (method_at m)).
    + destruct Hobj as [-> Hobj]. rewrite (load_mapped _ _ _ Hobj), Hs. cbn.
      eexists; split; [reflexivity|]. now rewrite ?app_nil_r.
    + destruct (tos_addr =? NULL).
      * destruct Hobj as [-> ->]. rewrite Hs. cbn.
        eexists; split; [reflexivity|]. now rewrite ?app_nil_r.
      * destruct Hobj as [-> Hobj]. rewrite (load_mapped _ _ _ Hobj), Hs. cbn.
        eexists; split; [reflexivity|]. now rewrite ?app_nil_r.
  - cbn in H. inversion H; subst. exists []. now rewrite app_nil_r.
Qed.


End TracedResult.



